(** * deterministic-voice-intelligence: intent routing and answer shaping

    A shallow embedding of the pipeline of [agent/graph.py], the arithmetic
    normalizer and evaluator of [tools/calculator.py] and the note store of
    [tools/notes.py], followed by the properties proved about them.

    Python strings are sequences of Unicode code points; they are modelled
    as lists of code points ([N]).  A string literal of the source is
    written [u "..."], which decodes the UTF-8 bytes of the literal into
    code points, so that the typographic quotes of the answers are single
    characters as they are in Python. *)

From Stdlib Require Import List String Ascii Bool Arith NArith ZArith Lia.
From Stdlib Require Import DecimalString.
Import ListNotations.

Set Implicit Arguments.

(* ====================================================================== *)
(** * Python strings *)
(* ====================================================================== *)

Module PyStr.

Definition char := N.
Definition pystr := list char.

Definition bytes_of (s : string) : list N :=
  map N_of_ascii (list_ascii_of_string s).

(** UTF-8 decoding of a source literal (one to four bytes per character). *)
Fixpoint utf8_decode (fuel : nat) (bs : list N) : pystr :=
  match fuel with
  | O => []
  | S fuel' =>
    match bs with
    | [] => []
    | b0 :: rest =>
      if (b0 <? 128)%N then b0 :: utf8_decode fuel' rest
      else if ((192 <=? b0) && (b0 <? 224))%N then
        match rest with
        | b1 :: rest' =>
          ((b0 - 192) * 64 + (b1 - 128))%N :: utf8_decode fuel' rest'
        | _ => b0 :: utf8_decode fuel' rest
        end
      else if ((224 <=? b0) && (b0 <? 240))%N then
        match rest with
        | b1 :: b2 :: rest' =>
          ((b0 - 224) * 4096 + (b1 - 128) * 64 + (b2 - 128))%N
            :: utf8_decode fuel' rest'
        | _ => b0 :: utf8_decode fuel' rest
        end
      else
        match rest with
        | b1 :: b2 :: b3 :: rest' =>
          ((b0 - 240) * 262144 + (b1 - 128) * 4096
           + (b2 - 128) * 64 + (b3 - 128))%N
            :: utf8_decode fuel' rest'
        | _ => b0 :: utf8_decode fuel' rest
        end
    end
  end.

Definition u (s : string) : pystr :=
  let bs := bytes_of s in utf8_decode (List.length bs) bs.

Definition eqb (a b : pystr) : bool :=
  if list_eq_dec N.eq_dec a b then true else false.

(** Truthiness of a string: [if s:] / [s or other]. *)
Definition nonempty (s : pystr) : bool :=
  match s with [] => false | _ => true end.

Definition or_else (s other : pystr) : pystr :=
  if nonempty s then s else other.

(** [text or ""] for an argument that may be [None]. *)
Definition or_empty (s : option pystr) : pystr :=
  match s with Some t => t | None => [] end.

(** ** Character classes

    [is_space] is CPython's [Py_UNICODE_ISSPACE], used by [str.strip],
    [str.split] and by [\s] in [re]. *)
Definition is_space (c : char) : bool :=
  (((9 <=? c) && (c <=? 13)) || ((28 <=? c) && (c <=? 32))
   || (c =? 133) || (c =? 160) || (c =? 5760)
   || ((8192 <=? c) && (c <=? 8202))
   || (c =? 8232) || (c =? 8233) || (c =? 8239) || (c =? 8287)
   || (c =? 12288))%N.

Definition is_ascii (c : char) : bool := (c <? 128)%N.

Definition is_ascii_digit (c : char) : bool := ((48 <=? c) && (c <=? 57))%N.
Definition is_ascii_upper (c : char) : bool := ((65 <=? c) && (c <=? 90))%N.
Definition is_ascii_lower (c : char) : bool := ((97 <=? c) && (c <=? 122))%N.

Definition is_ascii_word (c : char) : bool :=
  is_ascii_digit c || is_ascii_upper c || is_ascii_lower c || (c =? 95)%N.

Definition ascii_lower (c : char) : char :=
  if is_ascii_upper c then (c + 32)%N else c.

(** The part of the Unicode character database that the program consults
    through [str.lower], [\w]/[\b] and [\d] on characters outside ASCII.
    The tables are not part of the repository; they are taken as given. *)
Record Unicode := {
  uni_word  : char -> bool;       (* str.isalnum, beyond ASCII  *)
  uni_digit : char -> bool;       (* decimal digits beyond ASCII *)
  uni_lower : pystr -> pystr      (* str.lower on a string that is not ASCII *)
}.

(** A database that knows no letters or digits beyond ASCII; it is used to
    run the definitions on ASCII inputs. *)
Definition ascii_only : Unicode :=
  {| uni_word := fun _ => false;
     uni_digit := fun _ => false;
     uni_lower := fun s => s |}.

Section WithUnicode.
Variable U : Unicode.

Definition is_word (c : char) : bool :=
  if is_ascii c then is_ascii_word c else uni_word U c.

Definition is_digit (c : char) : bool :=
  if is_ascii c then is_ascii_digit c else uni_digit U c.

Definition lower (s : pystr) : pystr :=
  if forallb is_ascii s then map ascii_lower s else uni_lower U s.

End WithUnicode.

(** ** strip, split, join, slices *)

Fixpoint lstrip (s : pystr) : pystr :=
  match s with
  | c :: s' => if is_space c then lstrip s' else s
  | [] => []
  end.

Definition rstrip (s : pystr) : pystr := rev (lstrip (rev s)).

Definition strip (s : pystr) : pystr := rstrip (lstrip s).

(** [s.split()]: the maximal runs of characters that are not whitespace.
    [cur] is the word being read, reversed. *)
Fixpoint split_aux (cur : pystr) (s : pystr) : list pystr :=
  match s with
  | [] => match cur with [] => [] | _ => [rev cur] end
  | c :: s' =>
    if is_space c
    then match cur with [] => split_aux [] s' | _ => rev cur :: split_aux [] s' end
    else split_aux (c :: cur) s'
  end.

Definition split (s : pystr) : list pystr := split_aux [] s.

Fixpoint join (sep : pystr) (parts : list pystr) : pystr :=
  match parts with
  | [] => []
  | [p] => p
  | p :: ps => p ++ sep ++ join sep ps
  end.

(** [s.replace(old, new)] for a one-character [old]. *)
Definition replace_char (old : char) (new : pystr) (s : pystr) : pystr :=
  flat_map (fun c => if (c =? old)%N then new else [c]) s.

(** [s[:n]] and [s[n:]] for [n >= 0]. *)
Definition slice_to (n : nat) (s : pystr) : pystr := firstn n s.
Definition slice_from (n : nat) (s : pystr) : pystr := skipn n s.

(** [s.rfind(c, 0, stop)]: the highest index below [stop] that holds [c],
    or -1.  [i] is the index of the head of [s], [last] the best so far. *)
Fixpoint rfind_aux (c : char) (s : pystr) (stop : nat) (i : Z) (last : Z) : Z :=
  match stop, s with
  | S stop', x :: s' =>
    rfind_aux c s' stop' (i + 1)%Z (if (x =? c)%N then i else last)
  | _, _ => last
  end.

Definition rfind (c : char) (s : pystr) (stop : nat) : Z :=
  rfind_aux c s stop 0%Z (-1)%Z.

(** [str(n)] for an integer. *)
Definition str_of_Z (z : Z) : pystr :=
  bytes_of (NilZero.string_of_int (Z.to_int z)).

Definition str_of_nat (n : nat) : pystr := str_of_Z (Z.of_nat n).

End PyStr.

(* ====================================================================== *)
(** * The regular expressions of the program

    The patterns used by the program are built from literal characters,
    character classes, [\b], [^], [$], concatenation, alternation and the
    greedy repetitions [c+] and [c*] of a character class.  Matching is
    backtracking with Python's priorities: alternatives from left to right,
    repetitions longest first.  No pattern of the program matches the empty
    string, and [sub] treats an empty match as no match. *)
(* ====================================================================== *)

Module Re.
Import PyStr.

Inductive regex : Type :=
| Eps
| Chr (c : char)
| Cls (p : char -> bool)
| Wb
| Bos
| Eos
| Cat (r1 r2 : regex)
| Alt (r1 r2 : regex)
| Plus (p : char -> bool)
| Star (p : char -> bool).

Fixpoint lit (s : pystr) : regex :=
  match s with
  | [] => Eps
  | c :: s' => Cat (Chr c) (lit s')
  end.

(** [(p1|p2|...)] for literal alternatives. *)
Fixpoint any_of (ps : list pystr) : regex :=
  match ps with
  | [] => Cls (fun _ => false)
  | p :: ps' =>
    match ps' with
    | [] => lit p
    | _ => Alt (lit p) (any_of ps')
    end
  end.

(** [\b(p1|p2|...)\b] *)
Definition phrases (ps : list pystr) : regex := Cat Wb (Cat (any_of ps) Wb).

Definition one_of (cs : pystr) (c : char) : bool :=
  existsb (fun x => (x =? c)%N) cs.

Section Matching.
Variable U : Unicode.

Definition word_before (prev : option char) : bool :=
  match prev with Some c => is_word U c | None => false end.

Definition word_after (s : pystr) : bool :=
  match s with c :: _ => is_word U c | [] => false end.

Definition at_boundary (prev : option char) (s : pystr) : bool :=
  xorb (word_before prev) (word_after s).

(** [$] without MULTILINE: the end of the string, or just before a final
    newline. *)
Definition at_end (s : pystr) : bool :=
  match s with
  | [] => true
  | c :: [] => (c =? 10)%N
  | _ => false
  end.

Section Engine.
Variable A : Type.

Definition cont := option char -> pystr -> option A.

Fixpoint many (p : char -> bool) (prev : option char) (s : pystr) (k : cont)
  : option A :=
  match s with
  | c :: s' =>
    if p c then
      match many p (Some c) s' k with
      | Some r => Some r
      | None => k prev s
      end
    else k prev s
  | [] => k prev s
  end.

Fixpoint rmatch (r : regex) (prev : option char) (s : pystr) (k : cont)
  : option A :=
  match r with
  | Eps => k prev s
  | Chr c =>
    match s with
    | x :: s' => if (x =? c)%N then k (Some x) s' else None
    | [] => None
    end
  | Cls p =>
    match s with
    | x :: s' => if p x then k (Some x) s' else None
    | [] => None
    end
  | Wb => if at_boundary prev s then k prev s else None
  | Bos => match prev with None => k prev s | Some _ => None end
  | Eos => if at_end s then k prev s else None
  | Cat r1 r2 => rmatch r1 prev s (fun prev' s' => rmatch r2 prev' s' k)
  | Alt r1 r2 =>
    match rmatch r1 prev s k with
    | Some x => Some x
    | None => rmatch r2 prev s k
    end
  | Plus p =>
    match s with
    | x :: s' => if p x then many p (Some x) s' k else None
    | [] => None
    end
  | Star p => many p prev s k
  end.

End Engine.

(** A match of [r] starting here: the last character consumed and the rest
    of the subject. *)
Definition match_at (r : regex) (prev : option char) (s : pystr)
  : option (option char * pystr) :=
  rmatch r prev s (fun prev' s' => Some (prev', s')).

Fixpoint search_from (r : regex) (prev : option char) (s : pystr) : bool :=
  match match_at r prev s with
  | Some _ => true
  | None =>
    match s with
    | [] => false
    | c :: s' => search_from r (Some c) s'
    end
  end.

(** [bool(re.search(r, s))] *)
Definition search (r : regex) (s : pystr) : bool := search_from r None s.

(** [re.sub(r, repl, s, count)]; [count = None] replaces every match. *)
Fixpoint sub_from (fuel : nat) (r : regex) (repl : pystr) (count : option nat)
  (prev : option char) (s : pystr) : pystr :=
  match fuel with
  | O => s
  | S fuel' =>
    match count with
    | Some O => s
    | _ =>
      let advance :=
        match s with
        | [] => []
        | c :: s' => c :: sub_from fuel' r repl count (Some c) s'
        end in
      match match_at r prev s with
      | Some (prev', rest) =>
        if (List.length rest <? List.length s)%nat
        then repl ++ sub_from fuel' r repl (option_map pred count) prev' rest
        else advance
      | None => advance
      end
    end
  end.

Definition sub (r : regex) (repl : pystr) (s : pystr) : pystr :=
  sub_from (S (List.length s)) r repl None None s.

Definition sub_count (r : regex) (repl : pystr) (s : pystr) (count : nat)
  : pystr :=
  sub_from (S (List.length s)) r repl (Some count) None s.

End Matching.

End Re.

(* ====================================================================== *)
(** * The values that travel through the pipeline *)
(* ====================================================================== *)

Module PyData.
Import PyStr.

(** A value computed by [eval]: an integer, or any other object, of which
    the pipeline only ever uses the text [str] gives. *)
Inductive PyVal : Type :=
| VInt (z : Z)
| VOther (text : pystr).

Definition str_of_val (v : PyVal) : pystr :=
  match v with
  | VInt z => str_of_Z z
  | VOther t => t
  end.

(** The outcome of [eval]: a value, or an exception with its [str]. *)
Inductive EvalResult : Type :=
| Value (v : PyVal)
| Raised (msg : pystr).

(** The dictionaries the tools return, by the keys they may hold:
    [{"ok", "count"}], [{"ok", "count", "notes"}], [{"result"}],
    [{"error"}].  An absent key is [None]. *)
Record Dict : Type := mkDict {
  ok : option bool;
  count : option Z;
  notes : option (list pystr);
  result : option PyVal;
  error : option pystr
}.

Definition empty_dict : Dict := mkDict None None None None None.

(** Truthiness of a dictionary: it holds a key. *)
Definition dict_nonempty (d : Dict) : bool :=
  match ok d, count d, notes d, result d, error d with
  | None, None, None, None, None => false
  | _, _, _, _, _ => true
  end.

(** One record of a search result: [{"title": ..., "summary": ...}]. *)
Record Snippet : Type := mkSnippet {
  title : option pystr;
  summary : option pystr
}.

(** [tool_result]: a list of snippets or a dictionary. *)
Inductive ToolResult : Type :=
| TList (snippets : list Snippet)
| TDict (d : Dict).

End PyData.

(* ====================================================================== *)
(** * tools/calculator.py *)
(* ====================================================================== *)

Module Calculator.
Import PyStr Re PyData.

Definition _ALLOWED : pystr := u "0123456789+-*/(). %".

Definition _WORD_OPERATORS : list (regex * pystr) :=
  [ (phrases [u "plus"], u "+");
    (phrases [u "minus"], u "-");
    (phrases [u "over"], u "/");
    (phrases [u "divided by"], u "/");
    (phrases [u "divide by"], u "/");
    (phrases [u "times"], u "*");
    (phrases [u "multiplied by"], u "*");
    (phrases [u "multiply by"], u "*");
    (phrases [u "modulo"], u "%");
    (phrases [u "mod"], u "%");
    (phrases [u "power of"], u "**");
    (phrases [u "to the power of"], u "**");
    (phrases [u "raised to"], u "**") ].

Definition _NUM_WORDS : list (pystr * Z) :=
  [ (u "zero", 0); (u "one", 1); (u "two", 2); (u "three", 3); (u "four", 4);
    (u "five", 5); (u "six", 6); (u "seven", 7); (u "eight", 8);
    (u "nine", 9); (u "ten", 10); (u "eleven", 11); (u "twelve", 12);
    (u "thirteen", 13); (u "fourteen", 14); (u "fifteen", 15);
    (u "sixteen", 16); (u "seventeen", 17); (u "eighteen", 18);
    (u "nineteen", 19); (u "twenty", 20); (u "thirty", 30); (u "forty", 40);
    (u "fifty", 50); (u "sixty", 60); (u "seventy", 70); (u "eighty", 80);
    (u "ninety", 90) ]%Z.

Definition _SCALE_WORDS : list (pystr * Z) :=
  [ (u "hundred", 100); (u "thousand", 1000); (u "million", 1000000) ]%Z.

Definition _IGNORE_WORDS : list pystr := [ u "and" ].

(** [d[word]] / [word in d] for a dictionary written as its items. *)
Fixpoint lookup (word : pystr) (d : list (pystr * Z)) : option Z :=
  match d with
  | [] => None
  | (k, v) :: d' => if PyStr.eqb word k then Some v else lookup word d'
  end.

Definition member (word : pystr) (l : list pystr) : bool :=
  existsb (PyStr.eqb word) l.

Definition _ALL_NUMBER_WORDS : list pystr :=
  map fst _NUM_WORDS ++ map fst _SCALE_WORDS ++ _IGNORE_WORDS.

(** The loop of [_words_sequence_to_int], from the registers [total] and
    [current]. *)
Fixpoint words_loop (words : list pystr) (total current : Z) : option Z :=
  match words with
  | [] => Some (total + current)%Z
  | word :: rest =>
    if member word _IGNORE_WORDS then words_loop rest total current
    else
      match lookup word _NUM_WORDS with
      | Some v => words_loop rest total (current + v)%Z
      | None =>
        match lookup word _SCALE_WORDS with
        | Some scale =>
          let current1 := if (current =? 0)%Z then 1%Z else current in
          let current2 := (current1 * scale)%Z in
          if (1000 <=? scale)%Z
          then words_loop rest (total + current2)%Z 0%Z
          else words_loop rest total current2
        | None => None
        end
      end
  end.

Definition _words_sequence_to_int (words : list pystr) : option Z :=
  words_loop words 0%Z 0%Z.

(** What [_convert_number_words] does with a finished run [seq]. *)
Definition emit_seq (result seq : list pystr) : list pystr :=
  match seq with
  | [] => result
  | _ =>
    match _words_sequence_to_int seq with
    | Some number => result ++ [str_of_Z number]
    | None => result ++ seq
    end
  end.

Fixpoint convert_loop (words result seq : list pystr) : list pystr :=
  match words with
  | [] => emit_seq result seq
  | word :: rest =>
    if member word _ALL_NUMBER_WORDS
    then convert_loop rest result (seq ++ [word])
    else convert_loop rest (emit_seq result seq ++ [word]) []
  end.

Definition _convert_number_words (expr : pystr) : pystr :=
  join (u " ") (convert_loop (split expr) [] []).

(** ** The integer expressions of [eval]

    [eval] is Python's; what is modelled of it is the evaluation of integer
    expressions built from decimal literals, [+ - * // %], unary signs and
    parentheses.  Everything else (true division, powers, literals with a
    point, and every failing expression but a lone operator) is left to the
    interpreter, [eval_rest]. *)

Inductive token : Type :=
| TNum (z : Z)
| TPlus | TMinus | TStar | TSlash | TFloorDiv | TPercent
| TLParen | TRParen.

Definition digit_val (c : char) : Z := Z.of_N (c - 48)%N.

(** Reads the digits that follow [acc]. *)
Fixpoint read_number (acc : Z) (s : pystr) : Z * pystr :=
  match s with
  | c :: s' =>
    if is_ascii_digit c then read_number (acc * 10 + digit_val c)%Z s'
    else (acc, s)
  | [] => (acc, s)
  end.

Definition starts_with_digit (s : pystr) : bool :=
  match s with
  | c :: _ => is_ascii_digit c
  | [] => false
  end.

(** [None] where the expression leaves the modelled fragment: a character
    other than digits, operators, parentheses and blanks, a power operator,
    or a literal with a leading zero. *)
Fixpoint tokenize (fuel : nat) (s : pystr) : option (list token) :=
  match fuel with
  | O => None
  | S fuel' =>
    match s with
    | [] => Some []
    | c :: s' =>
      let cons_tok t rest := option_map (cons t) (tokenize fuel' rest) in
      if (c =? 32)%N then tokenize fuel' s'
      else if is_ascii_digit c then
        if ((c =? 48)%N && starts_with_digit s') then None
        else let (z, rest) := read_number (digit_val c) s' in
             cons_tok (TNum z) rest
      else if (c =? 43)%N then cons_tok TPlus s'
      else if (c =? 45)%N then cons_tok TMinus s'
      else if (c =? 40)%N then cons_tok TLParen s'
      else if (c =? 41)%N then cons_tok TRParen s'
      else if (c =? 37)%N then cons_tok TPercent s'
      else if (c =? 42)%N then
        match s' with
        | c' :: _ => if (c' =? 42)%N then None else cons_tok TStar s'
        | [] => cons_tok TStar s'
        end
      else if (c =? 47)%N then
        match s' with
        | c' :: s'' =>
          if (c' =? 47)%N then cons_tok TFloorDiv s'' else cons_tok TSlash s'
        | [] => cons_tok TSlash s'
        end
      else None
    end
  end.

Definition parser := list token -> option (Z * list token).

(** [term: term ('*'|'//'|'%') factor | factor], after a first factor. *)
Fixpoint term_loop (factor : parser) (n : nat) (acc : Z) (ts : list token)
  : option (Z * list token) :=
  match n with
  | O => None
  | S n' =>
    let next ts' (op : Z -> option Z) :=
      match factor ts' with
      | Some (v, ts'') =>
        match op v with
        | Some acc' => term_loop factor n' acc' ts''
        | None => None
        end
      | None => None
      end in
    match ts with
    | TStar :: ts' => next ts' (fun v => Some (acc * v)%Z)
    | TFloorDiv :: ts' =>
      next ts' (fun v => if (v =? 0)%Z then None else Some (acc / v)%Z)
    | TPercent :: ts' =>
      next ts' (fun v => if (v =? 0)%Z then None else Some (acc mod v)%Z)
    | TSlash :: _ => None
    | _ => Some (acc, ts)
    end
  end.

Definition parse_term (factor : parser) (n : nat) : parser :=
  fun ts =>
    match factor ts with
    | Some (v, ts') => term_loop factor n v ts'
    | None => None
    end.

(** [sum: sum ('+'|'-') term | term], after a first term. *)
Fixpoint sum_loop (term : parser) (n : nat) (acc : Z) (ts : list token)
  : option (Z * list token) :=
  match n with
  | O => None
  | S n' =>
    match ts with
    | TPlus :: ts' =>
      match term ts' with
      | Some (v, ts'') => sum_loop term n' (acc + v)%Z ts''
      | None => None
      end
    | TMinus :: ts' =>
      match term ts' with
      | Some (v, ts'') => sum_loop term n' (acc - v)%Z ts''
      | None => None
      end
    | _ => Some (acc, ts)
    end
  end.

Definition parse_sum (factor : parser) (n : nat) : parser :=
  fun ts =>
    match parse_term factor n ts with
    | Some (v, ts') => sum_loop (parse_term factor n) n v ts'
    | None => None
    end.

(** [factor: ('+'|'-') factor | NUMBER | '(' sum ')'] *)
Fixpoint parse_factor (n : nat) (fuel : nat) (ts : list token)
  : option (Z * list token) :=
  match fuel with
  | O => None
  | S fuel' =>
    match ts with
    | TPlus :: ts' => parse_factor n fuel' ts'
    | TMinus :: ts' =>
      match parse_factor n fuel' ts' with
      | Some (v, ts'') => Some ((- v)%Z, ts'')
      | None => None
      end
    | TNum z :: ts' => Some (z, ts')
    | TLParen :: ts' =>
      match parse_sum (parse_factor n fuel') n ts' with
      | Some (v, TRParen :: ts'') => Some (v, ts'')
      | _ => None
      end
    | _ => None
    end
  end.

(** The fragment stops at expressions of 200 characters, far below the
    interpreter's limits on nesting, recursion and the digits of a number. *)
Definition fragment_limit : nat := 200.

(** The integer an expression of the fragment evaluates to. *)
Definition eval_int (e : pystr) : option Z :=
  if (fragment_limit <? List.length e)%nat then None
  else
    match tokenize (S (List.length e)) e with
    | Some ts =>
      let n := S (List.length ts) in
      match parse_sum (parse_factor n n) n ts with
      | Some (v, []) => Some v
      | _ => None
      end
    | None => None
    end.

(** A lone division or modulo operator is no expression: [eval] raises
    [SyntaxError("invalid syntax")], whose [str] carries the pseudo file
    name and the line. *)
Definition lone_operator (e : pystr) : bool :=
  match tokenize (S (List.length e)) e with
  | Some [TSlash] | Some [TFloorDiv] | Some [TPercent] => true
  | _ => false
  end.

Section WithInterpreter.
Variable U : Unicode.
Variable eval_rest : pystr -> EvalResult.

(** [eval(expression, {"__builtins__": None}, {"math": math})] *)
Definition py_eval (expression : pystr) : EvalResult :=
  match eval_int expression with
  | Some z => Value (VInt z)
  | None =>
    if lone_operator expression
    then Raised (u "invalid syntax (<string>, line 1)")
    else eval_rest expression
  end.

Definition _replace_word_operators (expr : pystr) : pystr :=
  let normalized := lower U expr in
  let normalized := replace_char 45%N (u " ") normalized in
  let normalized := sub U (Cls (one_of (u "?!,.'"))) [] normalized in
  let normalized := _convert_number_words normalized in
  let normalized :=
    fold_left
      (fun acc (ps : regex * pystr) =>
         sub U (fst ps) (u " " ++ snd ps ++ u " ") acc)
      _WORD_OPERATORS normalized in
  let normalized := sub U (Plus is_ascii_lower) (u " ") normalized in
  let normalized := sub U (Plus is_space) (u " ") normalized in
  strip normalized.

Definition allowed (expression : pystr) : bool :=
  forallb (fun c => one_of _ALLOWED c) expression.

Definition result_dict (res : PyVal) : Dict :=
  mkDict None None None (Some res) None.

Definition error_dict (msg : pystr) : Dict :=
  mkDict None None None None (Some msg).

Definition calc (expression : option pystr) : Dict * Z :=
  let expression := _replace_word_operators (strip (or_empty expression)) in
  if negb (nonempty expression) || negb (allowed expression)
  then (error_dict (u "invalid characters"), 400%Z)
  else
    match py_eval expression with
    | Value res => (result_dict res, 200%Z)
    | Raised msg => (error_dict msg, 400%Z)
    end.

End WithInterpreter.

End Calculator.

(* ====================================================================== *)
(** * tools/notes.py

    [_NOTES] is a module-level list; the store is passed explicitly. *)
(* ====================================================================== *)

Module Notes.
Import PyStr PyData.

Definition Store := list pystr.

Definition _NOTES : Store := [].

Definition add_note (text : option pystr) (store : Store) : Store * Dict :=
  let text := strip (or_empty text) in
  let store' := if nonempty text then store ++ [text] else store in
  (store',
   mkDict (Some true) (Some (Z.of_nat (List.length store'))) None None None).

Definition list_notes (store : Store) : Dict :=
  mkDict (Some true) (Some (Z.of_nat (List.length store))) (Some store)
         None None.

(** The store after a sequence of [add_note] calls. *)
Definition add_all (texts : list (option pystr)) (store : Store) : Store :=
  fold_left (fun st text => fst (add_note text st)) texts store.

End Notes.

(* ====================================================================== *)
(** * agent/graph.py *)
(* ====================================================================== *)

Module Graph.
Import PyStr Re PyData Calculator Notes.

Inductive Intent : Type := NOTES | NOTES_LIST | CALC | SEARCH | ANSWER.

(** [State] is a [TypedDict] with [total=False]: every key may be absent.
    A node returns the keys it updates in a value of the same type.
    [full_answer] may be present and hold [None]. *)
Record State : Type := mkState {
  transcript : option pystr;
  intent : option Intent;
  tool_result : option ToolResult;
  draft_answer : option pystr;
  answer : option pystr;
  calc_status : option Z;
  truncated : option bool;
  full_answer : option (option pystr);
  continuation : option pystr
}.

Definition no_updates : State :=
  mkState None None None None None None None None None.

(** The state a caller passes to [graph.invoke]. *)
Definition input_state (text : pystr) : State :=
  mkState (Some text) None None None None None None None None.

Definition set_intent (i : Intent) : State :=
  mkState None (Some i) None None None None None None None.

Definition set_draft_answer (s : pystr) : State :=
  mkState None None None (Some s) None None None None None.

Definition set_tool_result (r : ToolResult) (status : option Z) : State :=
  mkState None None (Some r) None None status None None None.

Definition SPOKEN_MAX_LEN : nat := 300.

(** What the pipeline takes from its surroundings: the Unicode tables, the
    interpreter behind [eval] and the lookup [tools.search.wiki_summary],
    which asks a remote service. *)
Record Host : Type := mkHost {
  unicode : Unicode;
  eval_rest : pystr -> EvalResult;
  wiki_summary : pystr -> list Snippet
}.

(** A host for running the definitions on ASCII arithmetic and notes. *)
Definition plain_host : Host :=
  mkHost ascii_only (fun _ => Raised (u "unsupported")) (fun _ => []).

(** The patterns of [router] and [tool_node]. *)
Definition negation_phrases : list pystr :=
  [u "don't"; u "do not"; u "do n't"; u "never"; u "no"].

Definition negation_re : regex := phrases negation_phrases.

Definition notes_phrases : list pystr :=
  [u "add note"; u "add a note"; u "take a note"; u "remember to";
   u "note to"; u "note:"; u "remind me to"].

Definition notes_re : regex := phrases notes_phrases.

Definition notes_list_re : regex :=
  phrases [u "list notes"; u "show notes"; u "read notes"; u "what notes";
           u "my notes"].

Definition calc_re : regex :=
  phrases [u "calculate"; u "what is"; u "what's"; u "how much is";
           u "evaluate"; u "what about"; u "how about"].

Definition operator_re : regex := Alt (Cls (one_of (u "+-*/%"))) (lit (u "**")).

Definition search_re : regex :=
  phrases [u "search"; u "search for"; u "find"; u "look up"; u "lookup";
           u "look for"; u "tell me about"].

Definition search_strip_re : regex :=
  phrases [u "search for"; u "search"; u "look up"; u "lookup"; u "find";
           u "look for"].

Definition filler_re : regex :=
  Cat Bos (Cat (phrases [u "please"; u "for"; u "to"]) (Star is_space)).

Definition notes_strip_re : regex :=
  phrases [u "add a note"; u "add note"; u "take a note"; u "remember to";
           u "note to"; u "note:"; u "remind me to"].

Section WithHost.
Variable H : Host.

Let U := unicode H.

Definition digits_re : regex := Cat Wb (Cat (Plus (is_digit U)) Wb).

Definition collapse (s : pystr) : pystr := sub U (Plus is_space) (u " ") s.

Definition _normalize (text : option pystr) : pystr :=
  collapse (lower U (strip (or_empty text))).

(** The decision of [router] on the normalized transcript [t]. *)
Definition route (t : pystr) : Intent :=
  if negb (nonempty t) then ANSWER
  else
    let negation := search U negation_re t in
    if search U notes_re t && negb negation then NOTES
    else if search U notes_list_re t && negb negation then NOTES_LIST
    else if (search U calc_re t
             || search U digits_re t && search U operator_re t)
            && negb negation then CALC
    else if search U search_re t && negb negation then SEARCH
    else ANSWER.

Definition router (state : State) : State :=
  set_intent (route (_normalize (transcript state))).

(** The topic [tool_node] hands to the search. *)
Definition search_topic (t : pystr) : pystr :=
  let q := sub_count U search_strip_re [] t 1 in
  let q := sub U filler_re [] q in
  strip (collapse q).

(** The text [tool_node] hands to the note store. *)
Definition note_payload (t : pystr) : pystr :=
  let payload := sub_count U notes_strip_re [] t 1 in
  strip (collapse payload).

(** The expression [tool_node] hands to [calc]. *)
Definition calc_expression (t : pystr) : pystr :=
  let expression := sub_count U calc_re [] t 1 in
  let expression := sub U (Cat (Plus (one_of (u "?"))) Eos) [] expression in
  or_else (strip (collapse expression)) t.

Definition tool_node (store : Store) (state : State) : Store * State :=
  let t := _normalize (transcript state) in
  match intent state with
  | Some SEARCH =>
    let q := search_topic t in
    (store,
     set_tool_result (TList (if nonempty q then wiki_summary H q else []))
                     None)
  | Some NOTES =>
    let payload := note_payload t in
    if nonempty payload then
      let (store', res) := add_note (Some payload) store in
      (store', set_tool_result (TDict res) None)
    else
      (store,
       set_tool_result
         (TDict (mkDict (Some false) (Some 0%Z) None None None)) None)
  | Some NOTES_LIST => (store, set_tool_result (TDict (list_notes store)) None)
  | Some CALC =>
    let expression := calc_expression t in
    let (res, code) := calc U (eval_rest H) (Some expression) in
    (store, set_tool_result (TDict res) (Some code))
  | _ => (store, set_tool_result (TList []) None)
  end.

(** [state.get("tool_result") or []], then used as a list: a dictionary
    that holds a key cannot be sliced, which raises ([None]). *)
Definition as_list (r : option ToolResult) : option (list Snippet) :=
  match r with
  | None => Some []
  | Some (TList l) => Some l
  | Some (TDict d) => if dict_nonempty d then None else Some []
  end.

(** [state.get("tool_result") or {}], then used with [.get]: a list that
    is not empty has no [.get], which raises ([None]). *)
Definition as_dict (r : option ToolResult) : option Dict :=
  match r with
  | None => Some empty_dict
  | Some (TDict d) => Some d
  | Some (TList []) => Some empty_dict
  | Some (TList (_ :: _)) => None
  end.

Definition snippet_line (s : Snippet) : pystr :=
  let title := match title s with Some t => t | None => u "(no title)" end in
  let summary := replace_char 10%N (u " ") (or_empty (summary s)) in
  let summary :=
    if (400 <? List.length summary)%nat
    then rstrip (slice_to 397 summary) ++ u "..."
    else summary in
  title ++ u ": " ++ summary.

(** [f"Note {idx}: {text}."] for [enumerate(notes, start=idx)]. *)
Fixpoint note_lines (idx : nat) (notes : list pystr) : list pystr :=
  match notes with
  | [] => []
  | text :: rest =>
    (u "Note " ++ str_of_nat idx ++ u ": " ++ text ++ u ".")
      :: note_lines (S idx) rest
  end.

(** [code == 200] *)
Definition is_200 (code : option Z) : bool :=
  match code with Some c => (c =? 200)%Z | None => false end.

(** [None] stands for the exception a result of the wrong shape raises. *)
Definition answerer (state : State) : option State :=
  match intent state with
  | Some SEARCH =>
    match as_list (tool_result state) with
    | None => None
    | Some [] =>
      Some (set_draft_answer
        (u "I couldn’t find anything solid on that topic. Try rephrasing it for me."))
    | Some snippets =>
      let lines := map snippet_line (firstn 2 snippets) in
      Some (set_draft_answer
        (u "Here’s what I found." ++ [10%N] ++ join [10%N] lines))
    end
  | Some NOTES =>
    match as_dict (tool_result state) with
    | None => None
    | Some result =>
      match ok result with
      | Some true =>
        let count := match count result with Some c => c | None => 0%Z end in
        let plural := if (count =? 1)%Z then u "note" else u "notes" in
        Some (set_draft_answer
          (u "Got it. I’ll remember that. You now have " ++ str_of_Z count
           ++ u " " ++ plural ++ u "."))
      | _ =>
        Some (set_draft_answer (u "I couldn’t save that note. Please try again."))
      end
    end
  | Some NOTES_LIST =>
    match as_dict (tool_result state) with
    | None => None
    | Some result =>
      let notes := match notes result with Some l => l | None => [] end in
      let count :=
        match count result with
        | Some c => c
        | None => Z.of_nat (List.length notes)
        end in
      match notes with
      | [] =>
        Some (set_draft_answer
          (u "You don’t have any notes yet. Just ask me to remember something."))
      | _ =>
        let lines := note_lines 1 (firstn 5 notes) in
        let remaining := (count - Z.of_nat (List.length lines))%Z in
        let tail :=
          if (0 <? remaining)%Z
          then u " I’m tracking " ++ str_of_Z remaining ++ u " more."
          else [] in
        Some (set_draft_answer
          (u "Here’s what you asked me to remember. " ++ join (u " ") lines
           ++ tail))
      end
    end
  | Some CALC =>
    match as_dict (tool_result state) with
    | None => None
    | Some tr =>
      let code := calc_status state in
      let failure :=
        let err :=
          or_else (or_empty (error tr))
                  (u "invalid expression or unsupported characters") in
        set_draft_answer (u "I couldn’t work that out because " ++ err ++ u ".") in
      match result tr with
      | Some res =>
        if is_200 code
        then Some (set_draft_answer
               (u "The answer is " ++ str_of_val res ++ u "."))
        else Some failure
      | None => Some failure
      end
    end
  | _ =>
    let raw := or_empty (transcript state) in
    let clean := strip raw in
    Some (set_draft_answer
      (if nonempty clean then u "You said “" ++ clean ++ u ".”"
       else u "I didn’t catch that."))
  end.

End WithHost.

(** The string [verifier] reads:
    [state.get("draft_answer") or state.get("answer") or ""]. *)
Definition verifier_input (state : State) : pystr :=
  or_else (or_empty (draft_answer state)) (or_empty (answer state)).

Definition envelope (ans : pystr) (trunc : bool) (cont : pystr)
  (full : option pystr) : State :=
  mkState None None None None (Some ans) None (Some trunc) (Some full)
          (Some cont).

Definition verifier (state : State) : State :=
  let ans := strip (verifier_input state) in
  if negb (nonempty ans) then envelope [] false [] None
  else if (List.length ans <=? SPOKEN_MAX_LEN)%nat then
    envelope ans false [] None
  else
    let cut := rfind 46%N ans SPOKEN_MAX_LEN in
    let cut := if (cut =? -1)%Z then rfind 33%N ans SPOKEN_MAX_LEN else cut in
    let cut := if (cut =? -1)%Z then rfind 63%N ans SPOKEN_MAX_LEN else cut in
    let spoken :=
      if negb (cut =? -1)%Z && (0 <? cut)%Z
      then strip (slice_to (Z.to_nat (cut + 1)) ans)
      else
        let space_cut := rfind 32%N ans SPOKEN_MAX_LEN in
        if negb (space_cut =? -1)%Z && (0 <? space_cut)%Z
        then strip (slice_to (Z.to_nat space_cut) ans)
        else rstrip (slice_to SPOKEN_MAX_LEN ans) in
    let remainder := lstrip (slice_from (List.length spoken) ans) in
    envelope spoken true remainder (Some ans).

(** ** The graph and its execution

    [StateGraph] belongs to the langgraph library.  What [build_graph] uses
    of it is modelled here: nodes and plain edges, and the execution of the
    compiled graph in supersteps.  In a superstep every node that an edge
    leads to from a node of the previous superstep runs, each on the state
    the superstep started with; their updates are then written together,
    two writes to one key in one superstep being an error; the run stops
    when no node is left to run, and fails past [recursion_limit]
    supersteps. *)

Inductive Name : Type :=
| detect_intent | dispatch_tool | compose_answer | verify_answer | END.

Definition name_eqb (a b : Name) : bool :=
  match a, b with
  | detect_intent, detect_intent | dispatch_tool, dispatch_tool
  | compose_answer, compose_answer | verify_answer, verify_answer
  | END, END => true
  | _, _ => false
  end.

(** A node reads the state, may use the note store, and returns its
    updates; [None] is an exception. *)
Definition Node : Type := Store -> State -> option (Store * State).

Record StateGraph : Type := mkGraph {
  nodes : list (Name * Node);
  entry_point : option Name;
  edges : list (Name * Name)
}.

Definition new_graph : StateGraph := mkGraph [] None [].

Definition add_node (name : Name) (action : Node) (g : StateGraph)
  : StateGraph :=
  mkGraph (nodes g ++ [(name, action)]) (entry_point g) (edges g).

Definition set_entry_point (name : Name) (g : StateGraph) : StateGraph :=
  mkGraph (nodes g) (Some name) (edges g).

Definition add_edge (start_key end_key : Name) (g : StateGraph) : StateGraph :=
  mkGraph (nodes g) (entry_point g) (edges g ++ [(start_key, end_key)]).

Definition has_edge (g : StateGraph) (a b : Name) : bool :=
  existsb (fun e => name_eqb (fst e) a && name_eqb (snd e) b) (edges g).

Definition over {A : Type} (new old : option A) : option A :=
  match new with Some _ => new | None => old end.

(** The state after the keys of [updates] are written. *)
Definition update (state updates : State) : State :=
  mkState (over (transcript updates) (transcript state))
          (over (intent updates) (intent state))
          (over (tool_result updates) (tool_result state))
          (over (draft_answer updates) (draft_answer state))
          (over (answer updates) (answer state))
          (over (calc_status updates) (calc_status state))
          (over (truncated updates) (truncated state))
          (over (full_answer updates) (full_answer state))
          (over (continuation updates) (continuation state)).

Definition both {A B : Type} (a : option A) (b : option B) : bool :=
  match a, b with Some _, Some _ => true | _, _ => false end.

Definition same_key (a b : State) : bool :=
  both (transcript a) (transcript b) || both (intent a) (intent b)
  || both (tool_result a) (tool_result b)
  || both (draft_answer a) (draft_answer b) || both (answer a) (answer b)
  || both (calc_status a) (calc_status b) || both (truncated a) (truncated b)
  || both (full_answer a) (full_answer b)
  || both (continuation a) (continuation b).

(** The nodes of [active] run on [state]; their updates are gathered in
    [written]. *)
Fixpoint run_tasks (active : list (Name * Node)) (store : Store)
  (state : State) (written : State) : option (Store * State) :=
  match active with
  | [] => Some (store, written)
  | (_, action) :: rest =>
    match action store state with
    | None => None
    | Some (store', updates) =>
      if same_key written updates then None
      else run_tasks rest store' state (update written updates)
    end
  end.

(** The nodes an edge leads to from a node of [ran]. *)
Definition triggered (g : StateGraph) (ran : list (Name * Node))
  : list (Name * Node) :=
  filter (fun n => existsb (fun r => has_edge g (fst r) (fst n)) ran)
         (nodes g).

Definition Trace : Type := list (list Name).

Fixpoint supersteps (g : StateGraph) (limit : nat)
  (active : list (Name * Node)) (store : Store) (state : State)
  : option (Store * State * Trace) :=
  match active with
  | [] => Some (store, state, [])
  | _ :: _ =>
    match limit with
    | O => None
    | S limit' =>
      match run_tasks active store state no_updates with
      | None => None
      | Some (store', written) =>
        match supersteps g limit' (triggered g active) store'
                         (update state written) with
        | None => None
        | Some (store'', state', trace) =>
          Some (store'', state', map fst active :: trace)
        end
      end
    end
  end.

Definition recursion_limit : nat := 25.

(** [graph.invoke(input)]: the final state, with the store it leaves and
    the nodes run in each superstep. *)
Definition invoke (g : StateGraph) (store : Store) (input : State)
  : option (Store * State * Trace) :=
  match entry_point g with
  | None => None
  | Some entry =>
    supersteps g recursion_limit
      (filter (fun n => name_eqb (fst n) entry) (nodes g)) store input
  end.

Section Build.
Variable H : Host.

Definition router_node : Node :=
  fun store state => Some (store, router H state).

Definition tool_node_node : Node :=
  fun store state => Some (tool_node H store state).

Definition answerer_node : Node :=
  fun store state =>
    match answerer state with
    | Some updates => Some (store, updates)
    | None => None
    end.

Definition verifier_node : Node :=
  fun store state => Some (store, verifier state).

(** The wiring of [build_graph], for any four node actions. *)
Definition wire (r d c v : Node) : StateGraph :=
  let g := new_graph in
  let g := add_node detect_intent r g in
  let g := add_node dispatch_tool d g in
  let g := add_node compose_answer c g in
  let g := add_node verify_answer v g in
  let g := set_entry_point detect_intent g in
  let g := add_edge detect_intent dispatch_tool g in
  let g := add_edge detect_intent compose_answer g in
  let g := add_edge dispatch_tool compose_answer g in
  let g := add_edge compose_answer verify_answer g in
  let g := add_edge verify_answer END g in
  g.

Definition build_graph : StateGraph :=
  wire router_node tool_node_node answerer_node verifier_node.

End Build.

End Graph.

(* ====================================================================== *)
(** * The specification's wording

    Definitions that follow the words of the specification, to be compared
    with the program's. *)
(* ====================================================================== *)

Module Spec.
Import PyStr PyData Calculator Notes Graph.

(** "a [current] register accumulates units/tens added together and
    multiplied by encountered scale words; whenever a scale word >= 1,000
    is applied, the accumulated [current] is flushed into a running [total]
    and [current] resets to 0; the word "and" is ignored". *)
Fixpoint accumulate (words : list pystr) (total current : Z) : option Z :=
  match words with
  | [] => Some (total + current)%Z
  | word :: rest =>
    if member word _IGNORE_WORDS then accumulate rest total current
    else
      match lookup word _NUM_WORDS with
      | Some v => accumulate rest total (current + v)%Z
      | None =>
        match lookup word _SCALE_WORDS with
        | Some scale =>
          if (1000 <=? scale)%Z
          then accumulate rest (total + current * scale)%Z 0%Z
          else accumulate rest total (current * scale)%Z
        | None => None
        end
      end
  end.

Definition words_to_int (words : list pystr) : option Z :=
  accumulate words 0%Z 0%Z.

(** The same accumulator with the program's treatment of an empty register:
    a scale word met while [current] is zero counts from one. *)
Fixpoint accumulate_from_one (words : list pystr) (total current : Z)
  : option Z :=
  match words with
  | [] => Some (total + current)%Z
  | word :: rest =>
    if member word _IGNORE_WORDS then accumulate_from_one rest total current
    else
      match lookup word _NUM_WORDS with
      | Some v => accumulate_from_one rest total (current + v)%Z
      | None =>
        match lookup word _SCALE_WORDS with
        | Some scale =>
          if (1000 <=? scale)%Z
          then accumulate_from_one rest
                 (total + Z.max current 1 * scale)%Z 0%Z
          else accumulate_from_one rest total (Z.max current 1 * scale)%Z
        | None => None
        end
      end
  end.

(** "contains" a phrase: the phrase is a substring. *)
Definition contains (phrase t : pystr) : Prop :=
  exists before after, t = before ++ phrase ++ after.

Definition note_add_triggers : list pystr :=
  [u "add note"; u "add a note"; u "take a note"; u "remember to";
   u "note to"; u "note:"; u "remind me to"].

Definition negation_markers : list pystr :=
  [u "don't"; u "do not"; u "never"; u "no"].

(** A phrase "as a whole word": an occurrence with a word boundary at each
    end, i.e. exactly one of the two characters around the end is a word
    character (the ends of the transcript counting as none). *)
Definition occurs_as_words (U : Unicode) (phrase t : pystr) : Prop :=
  exists before after,
    t = before ++ phrase ++ after
    /\ Re.at_boundary U (last (map Some before) None) (phrase ++ after) = true
    /\ Re.at_boundary U (last (map Some (before ++ phrase)) None) after = true.

(** The texts the store keeps of a sequence of [add] arguments: the trimmed
    texts that are not empty, in the order of the calls. *)
Definition kept (texts : list (option pystr)) : list pystr :=
  filter nonempty (map (fun text => strip (or_empty text)) texts).


(** [text] is whitespace only. *)
Definition blank (ws : pystr) : Prop := forallb is_space ws = true.


End Spec.

(* ====================================================================== *)
(** * Notions used in the proofs *)
(* ====================================================================== *)

Module Notions.
Import PyStr PyData Notes Graph.

(** No whitespace at the head. *)
Definition clean_head (s : pystr) : Prop :=
  match s with
  | c :: _ => is_space c = false
  | [] => True
  end.

(** The character before the position that follows [s], when [prev] is the
    character before [s]. *)
Definition before_end (prev : option char) (s : pystr) : option char :=
  last (map Some s) prev.

(** The supersteps of the graph [build_graph] wires, whatever the four
    actions are: the router; the dispatcher and the composer; the composer
    and the verifier; the verifier. *)
Definition schedule : Trace :=
  [[detect_intent]; [dispatch_tool; compose_answer];
   [compose_answer; verify_answer]; [verify_answer]].

(** A tool result of the shape the composer expects for an intent. *)
Definition fits (i : option Intent) (r : ToolResult) : Prop :=
  match i with
  | Some SEARCH => exists l, r = TList l
  | Some NOTES | Some NOTES_LIST | Some CALC => exists d, r = TDict d
  | _ => True
  end.

(** The composer reads the transcript, the intent, the tool result and the
    status of the calculation, and nothing else. *)
Definition reads (t : option pystr) (i : option Intent)
  (r : option ToolResult) (status : option Z) (state : State) : Prop :=
  transcript state = t /\ intent state = i /\ tool_result state = r
  /\ calc_status state = status.

Ltac draft_found :=
  eexists; split; [|reflexivity]; reflexivity.

End Notions.

(* ====================================================================== *)
(** * tools/search.py *)
(* ====================================================================== *)

Module Search.
Import PyStr Re PyData.

(** [s.startswith(p)] *)
Fixpoint startswith (p s : pystr) : bool :=
  match p with
  | [] => true
  | c :: p' =>
    match s with
    | x :: s' => (x =? c)%N && startswith p' s'
    | [] => false
    end
  end.

Definition prefixes : list pystr :=
  [u "search "; u "search for "; u "wiki "; u "wikipedia "; u "lookup ";
   u "look up "; u "tell me about "].

(** The loop of [parse_topic] over the prefixes: the first prefix that
    [lowers] starts with is cut from [t]. *)
Fixpoint cut_prefix (ps : list pystr) (lowers t : pystr) : pystr :=
  match ps with
  | [] => t
  | p :: ps' =>
    if startswith p lowers then slice_from (List.length p) t
    else cut_prefix ps' lowers t
  end.

(** What the reply of the summary service comes to: a page with an
    ["extract"], with or without a ["title"], or nothing (the request
    fails, the status is an error, the body is no JSON object or has no
    extract).  The fields of a page are taken to be strings. *)
Inductive Reply : Type :=
| NoPage
| Page (page_title : option pystr) (extract : pystr).

Section WithService.
Variable U : Unicode.

(** The request of [wiki_summary] for a topic, with the encoding of the
    URL. *)
Variable request_summary : pystr -> Reply.

(** [parse_topic], for a list of prefixes. *)
Definition parse_topic_with (ps : list pystr) (transcript : option pystr)
  : pystr :=
  let t := strip (or_empty transcript) in
  let lowers := lower U t in
  let topic := cut_prefix ps lowers t in
  let topic := strip (sub U (Cat (Plus (one_of (u ".!?"))) Eos) [] topic) in
  sub U (Plus is_space) (u " ") topic.

Definition parse_topic (transcript : option pystr) : pystr :=
  parse_topic_with prefixes transcript.

Definition wiki_summary (raw_topic : option pystr) : list Snippet :=
  let topic := parse_topic raw_topic in
  if negb (nonempty topic) then []
  else
    match request_summary topic with
    | Page page_title extract =>
      [mkSnippet
         (Some (match page_title with Some t => t | None => topic end))
         (Some extract)]
    | NoPage => []
    end.

End WithService.

End Search.

(* ====================================================================== *)
(** * services/normalizer.py *)
(* ====================================================================== *)

Module Normalizer.
Import PyStr.

Record NormalizerResult : Type := mkResult {
  transcript : pystr;
  answer : option pystr
}.

(** The value under a key of the model's JSON object, as
    [(data.get(key) or "")] and [.strip()] see it. *)
Inductive Field : Type :=
| Missing               (* no such key, [null], or another falsy value *)
| Text (s : pystr)      (* a string *)
| Other.                (* a truthy value that is no string: [.strip] raises *)

(** What [rewrite_transcript] has in [data] after asking the model. *)
Inductive Data : Type :=
| NoData                (* no client, a failed request, no JSON, or falsy JSON *)
| NotObject             (* truthy JSON that is no object: [.get] raises *)
| Object (action content : Field).

Definition field_text (f : Field) : option pystr :=
  match f with
  | Missing => Some []
  | Text s => Some s
  | Other => None
  end.

Section WithModel.
Variable U : Unicode.

(** The exchange with the language model for a transcript, up to
    [data = _extract_json(content or "")]. *)
Variable ask_model : pystr -> Data.

(** [None] stands for the [AttributeError] that escapes the function. *)
Definition rewrite_transcript (raw : option pystr) : option NormalizerResult :=
  let raw := strip (or_empty raw) in
  if negb (nonempty raw) then Some (mkResult raw None)
  else
    match ask_model raw with
    | NoData => Some (mkResult raw None)
    | NotObject => None
    | Object action content =>
      match field_text action with
      | None => None
      | Some a =>
        let action := lower U (strip a) in
        match field_text content with
        | None => None
        | Some c =>
          let payload := strip c in
          if PyStr.eqb action (u "search") then
            Some (mkResult (u "search " ++ or_else payload raw) None)
          else if PyStr.eqb action (u "calculate") then
            Some (mkResult (u "calculate " ++ or_else payload raw) None)
          else if PyStr.eqb action (u "add_note") then
            Some (mkResult (u "add a note " ++ or_else payload raw) None)
          else if PyStr.eqb action (u "list_notes") then
            Some (mkResult (u "list notes") None)
          else if PyStr.eqb action (u "answer") && nonempty payload then
            Some (mkResult raw (Some (strip (slice_to 240 payload))))
          else Some (mkResult raw None)
        end
      end
    end.

End WithModel.

End Normalizer.

(* ====================================================================== *)
(** * api/main.py *)
(* ====================================================================== *)

Module Api.
Import PyStr PyData Notes Graph.

Definition MAX_WAV_BYTES : N := (10 * 1024 * 1024)%N.

(** [HTTPException(status_code=..., detail=...)] *)
Record HTTPException : Type := mkHTTPException {
  status_code : Z;
  detail : pystr
}.

(** [s.endswith(suffix)] *)
Definition endswith (suffix s : pystr) : bool :=
  Search.startswith (rev suffix) (rev s).

(** [filename] is [None] when there is no file or the file has no name;
    [wav_bytes] are the bytes read from it.  [None] is the normal return,
    [Some] the exception raised. *)
Definition _validate_wav_upload (U : Unicode) (filename : option pystr)
  (wav_bytes : list N) : option HTTPException :=
  if negb (nonempty (or_empty filename)) then
    Some (mkHTTPException 400 (u "No file uploaded."))
  else if negb (endswith (u ".wav") (lower U (or_empty filename))) then
    Some (mkHTTPException 415 (u "Only .wav files are supported."))
  else if negb (nonempty wav_bytes) then
    Some (mkHTTPException 400 (u "The uploaded file is empty."))
  else if (MAX_WAV_BYTES <? N.of_nat (List.length wav_bytes))%N then
    Some (mkHTTPException 413 (u "Audio file is too large (max 10 MB)."))
  else if negb (Search.startswith (bytes_of "RIFF") wav_bytes
                && PyStr.eqb (firstn 4 (skipn 8 wav_bytes)) (bytes_of "WAVE"))
  then
    Some (mkHTTPException 422 (u "File content is not a valid WAV stream."))
  else None.

(** What [transcribe_wav_bytes] does on the bytes: the text, or the
    exception it raises with its [str]. *)
Inductive Transcription : Type :=
| Transcribed (text : pystr)
| ValueError (msg : pystr)
| RuntimeError (msg : pystr)
| OtherError.

Definition _transcribe_or_error (transcribe : list N -> Transcription)
  (wav_bytes : list N) : HTTPException + pystr :=
  match transcribe wav_bytes with
  | Transcribed text => inr text
  | ValueError msg =>
    inl (mkHTTPException 422 (u "Unable to transcribe audio: " ++ msg))
  | RuntimeError msg =>
    inl (mkHTTPException 503 (u "ASR service unavailable: " ++ msg))
  | OtherError => inl (mkHTTPException 500 (u "Unexpected ASR failure"))
  end.

(** [asr_endpoint]: the exception, or the transcript of the response. *)
Definition asr_endpoint (U : Unicode) (transcribe : list N -> Transcription)
  (filename : option pystr) (wav : list N) : HTTPException + pystr :=
  match _validate_wav_upload U filename wav with
  | Some exc => inl exc
  | None => _transcribe_or_error transcribe wav
  end.

(** The body of the response of [agent_endpoint]. *)
Record AgentResponse : Type := mkResponse {
  text : pystr;
  response_intent : Intent;
  response_tool_result : option ToolResult
}.

Section WithHost.
Variable H : Host.
Variable ask_model : pystr -> Normalizer.Data.

(** [agent_endpoint]: the store it leaves and the response; [None] is a
    failure answered with status 500 (an exception of the rewriting, or of
    the graph, which [_invoke_agent] turns into an [HTTPException]). *)
Definition agent_endpoint (store : Store) (payload_transcript : pystr)
  : Store * option AgentResponse :=
  let transcript := strip payload_transcript in
  match Normalizer.rewrite_transcript (unicode H) ask_model (Some transcript)
  with
  | None => (store, None)
  | Some normalized =>
    if nonempty (or_empty (Normalizer.answer normalized)) then
      let verified :=
        verifier (set_draft_answer (or_empty (Normalizer.answer normalized)))
      in
      (store,
       Some (mkResponse
               (match answer verified with
                | Some a => a
                | None => or_empty (Normalizer.answer normalized)
                end)
               ANSWER None))
    else
      let cleaned :=
        or_else
          (strip (or_else (Normalizer.transcript normalized) transcript))
          transcript in
      match invoke (build_graph H) store (input_state cleaned) with
      | None => (store, None)
      | Some (store', state, _) =>
        (store',
         Some (mkResponse
                 (or_empty (answer state))
                 (match intent state with Some i => i | None => ANSWER end)
                 (tool_result state)))
      end
  end.

End WithHost.

End Api.

(* ====================================================================== *)
(** * Further notions used in the proofs *)
(* ====================================================================== *)

Module MoreNotions.
Import PyStr PyData Notes Graph.

(** The index [verifier] cuts a sentence at: the last ".", else the last
    "!", else the last "?" below the budget, or -1. *)
Definition sentence_cut (ans : pystr) : Z :=
  let cut := rfind 46%N ans SPOKEN_MAX_LEN in
  let cut := if (cut =? -1)%Z then rfind 33%N ans SPOKEN_MAX_LEN else cut in
  if (cut =? -1)%Z then rfind 63%N ans SPOKEN_MAX_LEN else cut.

(** The characters [verifier] takes for the end of a sentence, in the
    order it looks for them: ".", "!", "?". *)
Definition sentence_ends : list char := [46%N; 33%N; 63%N].

(** [i] is the last place below [stop] where [s] holds [c]. *)
Definition last_below (c : char) (s : pystr) (stop i : nat) : Prop :=
  (i < stop)%nat /\ nth_error s i = Some c
  /\ forall j, (i < j < stop)%nat -> nth_error s j <> Some c.

(** [s] does not hold [c] below [stop]. *)
Definition none_below (c : char) (s : pystr) (stop : nat) : Prop :=
  forall j, (j < stop)%nat -> nth_error s j <> Some c.

(** The test of [last_below] by evaluation. *)
Definition is_last_below (c : char) (s : pystr) (stop i : nat) : bool :=
  (i <? stop)%nat
  && match nth_error s i with Some x => (x =? c)%N | None => false end
  && forallb
       (fun j => match nth_error s j with
                 | Some x => negb (x =? c)%N
                 | None => true
                 end)
       (seq (S i) (stop - S i)).

(** A note as the store keeps it: not empty, and trimmed. *)
Definition trimmed_note (note : pystr) : Prop :=
  note <> [] /\ strip note = note.

(** The text starts with a character that is not whitespace. *)
Definition starts_clean (s : pystr) : bool :=
  match s with
  | c :: _ => negb (is_space c)
  | [] => false
  end.

(** The state the dispatcher and the composer's first run read. *)
Definition routed (H : Host) (text : pystr) : State :=
  mkState (Some text) (Some (route H (_normalize H (Some text))))
          None None None None None None None.

(** The state at the end of a run, from what the dispatcher and the
    composer's second run wrote. *)
Definition final_state (H : Host) (text : pystr) (r : ToolResult)
  (status : option Z) (draft : pystr) : State :=
  update
    (mkState (Some text) (Some (route H (_normalize H (Some text))))
             (Some r) (Some draft) None status None None None)
    (verifier (set_draft_answer draft)).

Ltac draft_written :=
  intros Heq; injection Heq as <-; eexists; split; reflexivity.

(** [a] is a prefix of [s]. *)
Definition prefix_of (a s : pystr) : Prop := exists rest, s = a ++ rest.

(** A host whose lookup knows one page, for running a search. *)
Definition one_page_host : Host :=
  mkHost ascii_only (fun _ => Raised (u "unsupported"))
    (fun topic =>
       if list_eq_dec N.eq_dec topic (u "cats")
       then [mkSnippet (Some (u "Cat")) (Some (u "The cat is a small mammal."))]
       else []).

End MoreNotions.

(* ====================================================================== *)
(** * Facts about strings *)
(* ====================================================================== *)

Module PyStrFacts.
Import PyStr Spec Notions.

Lemma blank_app (a b : pystr) : blank a -> blank b -> blank (a ++ b).
Proof.
  unfold blank. intros Ha Hb. rewrite forallb_app, Ha, Hb. reflexivity.
Qed.

Lemma lstrip_split (s : pystr) :
  exists ws, blank ws /\ s = ws ++ lstrip s.
Proof.
  induction s as [|c s IH]; simpl.
  - exists []. split; reflexivity.
  - destruct (is_space c) eqn:Hc.
    + destruct IH as [ws [Hws Heq]]. exists (c :: ws). split.
      * unfold blank in *. simpl. rewrite Hc, Hws. reflexivity.
      * simpl. f_equal. exact Heq.
    + exists []. split; reflexivity.
Qed.

Lemma lstrip_clean_head (s : pystr) : clean_head (lstrip s).
Proof.
  induction s as [|c s IH]; simpl; [exact I|].
  destruct (is_space c) eqn:Hc; [exact IH | simpl; exact Hc].
Qed.

Lemma lstrip_id (s : pystr) : clean_head s -> lstrip s = s.
Proof.
  destruct s as [|c s]; simpl; [reflexivity|]. intros ->. reflexivity.
Qed.

Lemma lstrip_blank_app (ws s : pystr) : blank ws -> lstrip (ws ++ s) = lstrip s.
Proof.
  unfold blank. induction ws as [|c ws IH]; simpl; [reflexivity|].
  intros Hb. apply andb_prop in Hb. destruct Hb as [Hc Hws].
  rewrite Hc. apply IH. exact Hws.
Qed.

Lemma lstrip_length (s : pystr) : (List.length (lstrip s) <= List.length s)%nat.
Proof.
  destruct (lstrip_split s) as [ws [_ Heq]].
  rewrite Heq at 2. rewrite length_app. lia.
Qed.

Lemma blank_rev (ws : pystr) : blank ws -> blank (rev ws).
Proof.
  unfold blank. intros Hb. apply forallb_forall. intros x Hx.
  apply in_rev in Hx. rewrite forallb_forall in Hb. apply Hb. exact Hx.
Qed.

Lemma rstrip_split (s : pystr) :
  exists ws, blank ws /\ s = rstrip s ++ ws.
Proof.
  unfold rstrip. destruct (lstrip_split (rev s)) as [ws [Hws Heq]].
  exists (rev ws). split.
  - apply blank_rev. exact Hws.
  - rewrite <- rev_app_distr, <- Heq, rev_involutive. reflexivity.
Qed.

Lemma rstrip_length (s : pystr) : (List.length (rstrip s) <= List.length s)%nat.
Proof.
  unfold rstrip. rewrite length_rev.
  etransitivity; [apply lstrip_length|]. rewrite length_rev. lia.
Qed.

Lemma strip_length (s : pystr) : (List.length (strip s) <= List.length s)%nat.
Proof.
  unfold strip. etransitivity; [apply rstrip_length | apply lstrip_length].
Qed.

Lemma rstrip_clean_last (s : pystr) : clean_head (rev (rstrip s)).
Proof.
  unfold rstrip. rewrite rev_involutive. apply lstrip_clean_head.
Qed.

Lemma rstrip_clean_head (s : pystr) : clean_head s -> clean_head (rstrip s).
Proof.
  intros Hs. destruct (rstrip_split s) as [ws [_ Heq]].
  destruct (rstrip s) as [|c r]; [exact I|].
  rewrite Heq in Hs. simpl in Hs. exact Hs.
Qed.

Lemma strip_clean_head (s : pystr) : clean_head (strip s).
Proof.
  unfold strip. apply rstrip_clean_head, lstrip_clean_head.
Qed.

Lemma strip_clean_last (s : pystr) : clean_head (rev (strip s)).
Proof.
  unfold strip. apply rstrip_clean_last.
Qed.

Lemma firstn_clean_head (n : nat) (s : pystr) :
  clean_head s -> clean_head (firstn n s).
Proof.
  destruct n, s; simpl; auto.
Qed.

(** A chunk cut from the head of a trimmed text, trimmed on either side or
    on the right only, is a prefix of the text, followed by whitespace. *)
Lemma chunk_split (k : nat) (s chunk : pystr) :
  clean_head s ->
  chunk = strip (firstn k s) \/ chunk = rstrip (firstn k s) ->
  exists ws, blank ws /\ s = chunk ++ ws ++ skipn k s.
Proof.
  intros Hs Hchunk.
  assert (Heq : chunk = rstrip (firstn k s)).
  { destruct Hchunk as [-> | ->]; [|reflexivity].
    unfold strip. rewrite lstrip_id; [reflexivity|].
    apply firstn_clean_head. exact Hs. }
  destruct (rstrip_split (firstn k s)) as [ws [Hws Hfirst]].
  exists ws. split; [exact Hws|].
  rewrite Heq, app_assoc, <- Hfirst. symmetry. apply firstn_skipn.
Qed.

(** What follows a chunk that stops short of the end of a trimmed text is
    not whitespace only. *)
Lemma tail_not_blank (k : nat) (s : pystr) :
  clean_head (rev s) -> (k < List.length s)%nat -> lstrip (skipn k s) <> [].
Proof.
  intros Hlast Hk Hnil.
  destruct (lstrip_split (skipn k s)) as [ws [Hws Heq]].
  rewrite Hnil, app_nil_r in Heq.
  assert (Hlen : (0 < List.length ws)%nat).
  { rewrite <- Heq, length_skipn. lia. }
  rewrite <- (firstn_skipn k s), Heq, rev_app_distr in Hlast.
  apply blank_rev in Hws.
  destruct (rev ws) as [|c r] eqn:Hr.
  - apply (f_equal (@List.length _)) in Hr. rewrite length_rev in Hr.
    simpl in Hr. lia.
  - simpl in Hlast. unfold blank in Hws. simpl in Hws.
    rewrite Hlast in Hws. discriminate.
Qed.

Lemma rfind_aux_bounds (c : char) (s : pystr) (stop : nat) (i last : Z) :
  (last < i)%Z ->
  let r := rfind_aux c s stop i last in
  (r = last \/ (i <= r < i + Z.of_nat stop)%Z).
Proof.
  revert s i last. induction stop as [|stop IH]; intros s i last Hlt.
  - destruct s; left; reflexivity.
  - destruct s as [|x s]; [left; reflexivity|]. simpl.
    destruct (x =? c)%N.
    + specialize (IH s (i + 1)%Z i ltac:(lia)). simpl in IH.
      destruct IH as [-> | IH]; right; lia.
    + specialize (IH s (i + 1)%Z last ltac:(lia)). simpl in IH.
      destruct IH as [-> | IH]; [left; reflexivity | right; lia].
Qed.

Lemma rfind_bounds (c : char) (s : pystr) (stop : nat) :
  (-1 <= rfind c s stop < Z.of_nat stop)%Z.
Proof.
  unfold rfind.
  pose proof (@rfind_aux_bounds c s stop 0%Z (-1)%Z ltac:(lia)) as Hb.
  simpl in Hb. lia.
Qed.

Lemma nonempty_false (s : pystr) : nonempty s = false -> s = [].
Proof.
  destruct s; [reflexivity | discriminate].
Qed.

Lemma nonempty_true (s : pystr) : nonempty s = true <-> s <> [].
Proof.
  destruct s; simpl; split; congruence.
Qed.

End PyStrFacts.

(* ====================================================================== *)
(** * The verifier *)
(* ====================================================================== *)

Module VerifierFacts.
Import PyStr PyData Graph Spec Notions PyStrFacts.

Lemma skipn_length_app (a b : pystr) : skipn (List.length a) (a ++ b) = b.
Proof.
  induction a as [|x a IH]; simpl; [reflexivity | exact IH].
Qed.

(** The two outcomes of [verifier]: the trimmed text within the budget, or a
    chunk cut from its head within the budget and the rest. *)
Lemma verifier_cases (state : State) :
  let ans := strip (verifier_input state) in
  ((List.length ans <= SPOKEN_MAX_LEN)%nat
   /\ verifier state = envelope ans false [] None)
  \/ ((SPOKEN_MAX_LEN < List.length ans)%nat
      /\ exists k spoken,
           (k <= SPOKEN_MAX_LEN)%nat
           /\ (spoken = strip (firstn k ans) \/ spoken = rstrip (firstn k ans))
           /\ verifier state
              = envelope spoken true
                  (lstrip (skipn (List.length spoken) ans)) (Some ans)).
Proof.
  intros ans. unfold verifier. fold ans.
  destruct (nonempty ans) eqn:Hne; simpl negb; cbv iota.
  2:{ left. apply nonempty_false in Hne. rewrite Hne. split.
      - simpl. lia.
      - reflexivity. }
  destruct (List.length ans <=? SPOKEN_MAX_LEN)%nat eqn:Hlen.
  { left. apply Nat.leb_le in Hlen. split; [exact Hlen | reflexivity]. }
  right. apply Nat.leb_gt in Hlen. split; [exact Hlen|].
  set (cut1 := rfind 46%N ans SPOKEN_MAX_LEN).
  set (cut2 := if (cut1 =? -1)%Z then rfind 33%N ans SPOKEN_MAX_LEN else cut1).
  set (cut := if (cut2 =? -1)%Z then rfind 63%N ans SPOKEN_MAX_LEN else cut2).
  assert (Hcut : (-1 <= cut < Z.of_nat SPOKEN_MAX_LEN)%Z).
  { pose proof (rfind_bounds 46%N ans SPOKEN_MAX_LEN).
    pose proof (rfind_bounds 33%N ans SPOKEN_MAX_LEN).
    pose proof (rfind_bounds 63%N ans SPOKEN_MAX_LEN).
    unfold cut, cut2, cut1.
    repeat match goal with
           | |- context [if ?b then _ else _] => destruct b
           end; lia. }
  set (space_cut := rfind 32%N ans SPOKEN_MAX_LEN).
  pose proof (rfind_bounds 32%N ans SPOKEN_MAX_LEN) as Hspace.
  fold space_cut in Hspace.
  destruct (negb (cut =? -1)%Z && (0 <? cut)%Z) eqn:Hsentence.
  - exists (Z.to_nat (cut + 1)), (strip (slice_to (Z.to_nat (cut + 1)) ans)).
    split; [lia|]. split; [left; reflexivity | reflexivity].
  - destruct (negb (space_cut =? -1)%Z && (0 <? space_cut)%Z) eqn:Hsp.
    + exists (Z.to_nat space_cut), (strip (slice_to (Z.to_nat space_cut) ans)).
      split; [lia|]. split; [left; reflexivity | reflexivity].
    + exists SPOKEN_MAX_LEN, (rstrip (slice_to SPOKEN_MAX_LEN ans)).
      split; [lia|]. split; [right; reflexivity | reflexivity].
Qed.

(** In the second outcome the text is the chunk, whitespace, and a rest
    that is not empty. *)
Lemma cut_rebuilds (k : nat) (ans spoken : pystr) :
  clean_head ans -> clean_head (rev ans) ->
  (k < List.length ans)%nat ->
  spoken = strip (firstn k ans) \/ spoken = rstrip (firstn k ans) ->
  let remainder := lstrip (skipn (List.length spoken) ans) in
  remainder <> [] /\ exists ws, blank ws /\ ans = spoken ++ ws ++ remainder.
Proof.
  intros Hhead Hlast Hk Hspoken remainder.
  destruct (@chunk_split k ans spoken Hhead Hspoken) as [ws1 [Hws1 Hans]].
  assert (Hrem : remainder = lstrip (skipn k ans)).
  { unfold remainder. rewrite Hans at 1. rewrite skipn_length_app.
    apply lstrip_blank_app. exact Hws1. }
  split.
  - rewrite Hrem. apply tail_not_blank; assumption.
  - destruct (lstrip_split (skipn k ans)) as [ws2 [Hws2 Hskip]].
    exists (ws1 ++ ws2). split; [apply blank_app; assumption|].
    rewrite Hrem, <- app_assoc, <- Hskip. exact Hans.
Qed.

End VerifierFacts.

(** C8.  For every draft answer of at most 300 characters that the verifier
    is given (the text it reads from the state: [draft_answer], or [answer]
    when there is no draft), the answer it returns is the trimmed draft,
    and [truncated] is false. *)
Theorem verifier_trims_short_draft (state : Graph.State) :
  (List.length (Graph.verifier_input state) <= Graph.SPOKEN_MAX_LEN)%nat ->
  Graph.answer (Graph.verifier state)
    = Some (PyStr.strip (Graph.verifier_input state))
  /\ Graph.truncated (Graph.verifier state) = Some false.
Proof.
  intros Hlen.
  destruct (VerifierFacts.verifier_cases state) as [[_ Heq] | [Hlong _]].
  - rewrite Heq. split; reflexivity.
  - pose proof (PyStrFacts.strip_length (Graph.verifier_input state)). lia.
Qed.

Lemma verifier_trims_short_draft_witness :
  Graph.answer
    (Graph.verifier (Graph.set_draft_answer (PyStr.u "  The answer is 72. ")))
  = Some (PyStr.u "The answer is 72.").
Proof.
  exact (proj1 (@verifier_trims_short_draft
                  (Graph.set_draft_answer (PyStr.u "  The answer is 72. "))
                  ltac:(vm_compute; lia))).
Defined.

(** C3.  For every draft answer given to the verifier, with [ans] the
    trimmed draft: [truncated] is true exactly when [continuation] is not
    empty and [full_answer] is [ans]; when [truncated] is false,
    [continuation] is empty and [full_answer] is null; and when [truncated]
    is true, [ans] is [answer], then whitespace, then [continuation]. *)
Theorem verifier_envelope_invariant (state : Graph.State) :
  let ans := PyStr.strip (Graph.verifier_input state) in
  exists spoken trunc cont full,
    Graph.answer (Graph.verifier state) = Some spoken
    /\ Graph.truncated (Graph.verifier state) = Some trunc
    /\ Graph.continuation (Graph.verifier state) = Some cont
    /\ Graph.full_answer (Graph.verifier state) = Some full
    /\ (trunc = true <-> cont <> [] /\ full = Some ans)
    /\ (trunc = false -> cont = [] /\ full = None)
    /\ (trunc = true ->
        exists ws, Spec.blank ws /\ ans = spoken ++ ws ++ cont).
Proof.
  intros ans.
  destruct (VerifierFacts.verifier_cases state)
    as [[_ Heq] | [Hlong [k [spoken [Hk [Hspoken Heq]]]]]]; fold ans in Heq.
  - exists ans, false, [], None. rewrite Heq.
    do 4 (split; [reflexivity|]). split; [|split].
    + split; [discriminate | intros [Hcont _]; congruence].
    + intros _. split; reflexivity.
    + discriminate.
  - fold ans in Hlong, Hspoken.
    destruct (@VerifierFacts.cut_rebuilds k ans spoken) as [Hne Hws].
    + apply PyStrFacts.strip_clean_head.
    + apply PyStrFacts.strip_clean_last.
    + lia.
    + exact Hspoken.
    + exists spoken, true,
        (PyStr.lstrip (skipn (List.length spoken) ans)), (Some ans).
      rewrite Heq. do 4 (split; [reflexivity|]). split; [|split].
      * split; [intros _; split; [exact Hne | reflexivity] | reflexivity].
      * discriminate.
      * intros _. exact Hws.
Qed.

Lemma verifier_envelope_invariant_witness :
  exists spoken cont ws,
    Graph.answer
      (Graph.verifier
         (Graph.set_draft_answer
            (List.concat (repeat (PyStr.u "One more sentence. ") 20))))
    = Some spoken
    /\ Graph.continuation
         (Graph.verifier
            (Graph.set_draft_answer
               (List.concat (repeat (PyStr.u "One more sentence. ") 20))))
       = Some cont
    /\ cont <> []
    /\ Spec.blank ws
    /\ PyStr.strip (List.concat (repeat (PyStr.u "One more sentence. ") 20))
       = spoken ++ ws ++ cont.
Proof.
  pose proof (verifier_envelope_invariant
                (Graph.set_draft_answer
                   (List.concat (repeat (PyStr.u "One more sentence. ") 20))))
    as Hinv.
  cbv zeta in Hinv.
  destruct Hinv
    as [spoken [trunc [cont [full [Ha [Ht [Hc [_ [Hiff [_ Hcut]]]]]]]]]].
  assert (Htrunc : trunc = true).
  { vm_compute in Ht. injection Ht as <-. reflexivity. }
  destruct (Hcut Htrunc) as [ws [Hws Hans]].
  exists spoken, cont, ws.
  split; [exact Ha|]. split; [exact Hc|].
  split; [exact (proj1 (proj1 Hiff Htrunc))|].
  split; [exact Hws|]. exact Hans.
Defined.

(* ====================================================================== *)
(** * The note store *)
(* ====================================================================== *)

Module NotesFacts.
Import PyStr PyData Notes Spec.

Lemma add_note_store (text : option pystr) (store : Store) :
  fst (add_note text store)
  = store ++ filter nonempty [strip (or_empty text)].
Proof.
  unfold add_note. simpl.
  destruct (nonempty (strip (or_empty text))); [reflexivity|].
  symmetry. apply app_nil_r.
Qed.

Lemma kept_cons (text : option pystr) (texts : list (option pystr)) :
  kept (text :: texts)
  = filter nonempty [strip (or_empty text)] ++ kept texts.
Proof.
  unfold kept. simpl.
  destruct (nonempty (strip (or_empty text))); reflexivity.
Qed.

Lemma add_all_cons (text : option pystr) (texts : list (option pystr))
  (store : Store) :
  add_all (text :: texts) store = add_all texts (fst (add_note text store)).
Proof.
  reflexivity.
Qed.

Lemma add_all_store (texts : list (option pystr)) (store : Store) :
  add_all texts store = store ++ kept texts.
Proof.
  revert store.
  induction texts as [|text texts IH]; intros store.
  - symmetry. apply app_nil_r.
  - rewrite add_all_cons, IH, add_note_store, kept_cons, <- app_assoc.
    reflexivity.
Qed.

End NotesFacts.

(** C5.  After any finite sequence of [add] calls on an empty store,
    [list().count] is the number of calls whose argument is not empty once
    trimmed, and [list().notes] holds exactly those trimmed texts in the
    order of the calls. *)
Theorem list_notes_after_adds (texts : list (option PyStr.pystr)) :
  let store := Notes.add_all texts Notes._NOTES in
  PyData.count (Notes.list_notes store)
    = Some (Z.of_nat (List.length (Spec.kept texts)))
  /\ PyData.notes (Notes.list_notes store) = Some (Spec.kept texts).
Proof.
  simpl. rewrite NotesFacts.add_all_store. unfold Notes._NOTES. simpl.
  split; reflexivity.
Qed.

(** C10.  For a text that is empty or whitespace only, [add_note] returns
    [{"ok": True, "count": c}] with [c] the number of notes already stored
    and leaves the store as it was; [add_note] never returns [ok] false;
    the result [{"ok": False, "count": 0}] is made by [tool_node] itself,
    without a call to the store, when the payload is empty. *)
Theorem add_note_blank_text (H : Graph.Host) :
  (forall text store,
     PyStr.strip (PyStr.or_empty text) = [] ->
     Notes.add_note text store
     = (store,
        PyData.mkDict (Some true) (Some (Z.of_nat (List.length store)))
                      None None None))
  /\ (forall text store,
        PyData.ok (snd (Notes.add_note text store)) = Some true)
  /\ (forall store state,
        Graph.intent state = Some Graph.NOTES ->
        Graph.note_payload H (Graph._normalize H (Graph.transcript state)) = [] ->
        Graph.tool_node H store state
        = (store,
           Graph.set_tool_result
             (PyData.TDict
                (PyData.mkDict (Some false) (Some 0%Z) None None None))
             None)).
Proof.
  split; [|split].
  - intros text store Hblank. unfold Notes.add_note. rewrite Hblank.
    reflexivity.
  - intros text store. reflexivity.
  - intros store state Hintent Hpayload. unfold Graph.tool_node.
    rewrite Hintent, Hpayload. reflexivity.
Qed.

Lemma add_note_blank_text_witness :
  Notes.add_note (Some (PyStr.u "   ")) [PyStr.u "call mom"]
  = ([PyStr.u "call mom"],
     PyData.mkDict (Some true) (Some 1%Z) None None None)
  /\ Graph.tool_node Graph.plain_host [PyStr.u "call mom"]
       (Graph.mkState (Some (PyStr.u "Add a note ")) (Some Graph.NOTES)
                      None None None None None None None)
     = ([PyStr.u "call mom"],
        Graph.set_tool_result
          (PyData.TDict (PyData.mkDict (Some false) (Some 0%Z) None None None))
          None).
Proof.
  destruct (add_note_blank_text Graph.plain_host) as [Hadd [_ Htool]].
  split.
  - apply Hadd. vm_compute. reflexivity.
  - apply Htool; vm_compute; reflexivity.
Defined.

(* ====================================================================== *)
(** * The calculator *)
(* ====================================================================== *)

Module CalculatorFacts.
Import PyStr Re PyData Calculator Spec.

Lemma lookup_nonneg (d : list (pystr * Z)) (word : pystr) (v : Z) :
  Forall (fun kv => (0 <= snd kv)%Z) d -> lookup word d = Some v -> (0 <= v)%Z.
Proof.
  induction 1 as [|[k z] d Hz _ IH]; simpl; [discriminate|].
  destruct (PyStr.eqb word k); [|exact IH].
  intros Heq. injection Heq as <-. exact Hz.
Qed.

Lemma num_words_nonneg : Forall (fun kv => (0 <= snd kv)%Z) _NUM_WORDS.
Proof.
  unfold _NUM_WORDS. repeat constructor; simpl; lia.
Qed.

Lemma scale_words_positive : Forall (fun kv => (0 <= snd kv)%Z) _SCALE_WORDS.
Proof.
  unfold _SCALE_WORDS. repeat constructor; simpl; lia.
Qed.

Lemma words_loop_step (word : pystr) (rest : list pystr) (total current : Z) :
  words_loop (word :: rest) total current
  = if member word _IGNORE_WORDS then words_loop rest total current
    else
      match lookup word _NUM_WORDS with
      | Some v => words_loop rest total (current + v)%Z
      | None =>
        match lookup word _SCALE_WORDS with
        | Some scale =>
          if (1000 <=? scale)%Z
          then words_loop rest
                 (total + (if (current =? 0)%Z then 1 else current) * scale)%Z
                 0%Z
          else words_loop rest total
                 ((if (current =? 0)%Z then 1 else current) * scale)%Z
        | None => None
        end
      end.
Proof.
  reflexivity.
Qed.

Lemma accumulate_from_one_step (word : pystr) (rest : list pystr)
  (total current : Z) :
  accumulate_from_one (word :: rest) total current
  = if member word _IGNORE_WORDS then accumulate_from_one rest total current
    else
      match lookup word _NUM_WORDS with
      | Some v => accumulate_from_one rest total (current + v)%Z
      | None =>
        match lookup word _SCALE_WORDS with
        | Some scale =>
          if (1000 <=? scale)%Z
          then accumulate_from_one rest
                 (total + Z.max current 1 * scale)%Z 0%Z
          else accumulate_from_one rest total (Z.max current 1 * scale)%Z
        | None => None
        end
      end.
Proof.
  reflexivity.
Qed.

Lemma empty_register_counts_one (current : Z) :
  (0 <= current)%Z ->
  (if (current =? 0)%Z then 1 else current)%Z = Z.max current 1.
Proof.
  intros Hc. destruct (Z.eqb_spec current 0); lia.
Qed.

(** The registers never go below zero, so the program's test for an empty
    register and "at least one" agree. *)
Lemma words_loop_accumulates (words : list pystr) :
  forall total current,
    (0 <= current)%Z ->
    words_loop words total current = accumulate_from_one words total current.
Proof.
  induction words as [|word rest IH]; intros total current Hc;
    [reflexivity|].
  rewrite words_loop_step, accumulate_from_one_step.
  destruct (member word _IGNORE_WORDS); [apply IH; exact Hc|].
  destruct (lookup word _NUM_WORDS) as [v|] eqn:Hnum.
  - apply IH. pose proof (lookup_nonneg word num_words_nonneg Hnum). lia.
  - destruct (lookup word _SCALE_WORDS) as [scale|] eqn:Hscale;
      [|reflexivity].
    pose proof (lookup_nonneg word scale_words_positive Hscale) as Hs.
    rewrite (empty_register_counts_one Hc).
    destruct (1000 <=? scale)%Z; apply IH; nia.
Qed.

Lemma allowed_false (expression : pystr) (c : char) :
  In c expression -> one_of _ALLOWED c = false -> allowed expression = false.
Proof.
  intros Hin Hc. unfold allowed.
  destruct (forallb (fun c0 => one_of _ALLOWED c0) expression) eqn:Hall;
    [|reflexivity].
  rewrite forallb_forall in Hall. rewrite (Hall c Hin) in Hc. discriminate.
Qed.

End CalculatorFacts.

(** C7, as the program has it.  The conversion of a run of number words is
    the two-register accumulator in which units and tens add into
    [current], a scale word multiplies [current] taken as at least one (an
    empty register counts from one), a scale of at least 1000 moves
    [current] into [total], and "and" is skipped; "three hundred and five"
    becomes "305". *)
Theorem number_words_accumulate (words : list PyStr.pystr) :
  Calculator._words_sequence_to_int words
    = Spec.accumulate_from_one words 0%Z 0%Z
  /\ Calculator._convert_number_words (PyStr.u "three hundred and five")
     = PyStr.u "305".
Proof.
  split.
  - apply CalculatorFacts.words_loop_accumulates. lia.
  - vm_compute. reflexivity.
Qed.

(** C7, as stated, fails on a scale word that meets an empty register:
    multiplying the register gives 0 for "hundred", the program gives 100. *)
Lemma scale_word_on_empty_register :
  Spec.words_to_int [PyStr.u "hundred"] = Some 0%Z
  /\ Calculator._words_sequence_to_int [PyStr.u "hundred"] = Some 100%Z
  /\ Calculator._convert_number_words (PyStr.u "hundred") = PyStr.u "100"
  /\ Calculator._words_sequence_to_int [PyStr.u "hundred"]
     <> Spec.words_to_int [PyStr.u "hundred"].
Proof.
  repeat split; try (vm_compute; reflexivity).
  vm_compute. discriminate.
Qed.

(** C6, as the program has it.  [calc("rm -rf /")] normalizes its argument
    to ["/"]: the letters are deleted and the hyphen becomes a blank.  All
    characters of ["/"] are allowed, the evaluation fails, and the result
    is [({"error": "invalid syntax (<string>, line 1)"}, 400)].  An input
    whose normalized form is empty or holds a character outside the allowed
    set is rejected with [({"error": "invalid characters"}, 400)]. *)
Theorem calc_rejects_after_normalizing
  (U : PyStr.Unicode) (eval_rest : PyStr.pystr -> PyData.EvalResult) :
  Calculator._replace_word_operators U (PyStr.u "rm -rf /") = PyStr.u "/"
  /\ Calculator.calc U eval_rest (Some (PyStr.u "rm -rf /"))
     = (Calculator.error_dict (PyStr.u "invalid syntax (<string>, line 1)"),
        400%Z)
  /\ (forall expression,
        let normalized :=
          Calculator._replace_word_operators U
            (PyStr.strip (PyStr.or_empty expression)) in
        (normalized = []
         \/ exists c, In c normalized
                      /\ Re.one_of Calculator._ALLOWED c = false) ->
        Calculator.calc U eval_rest expression
        = (Calculator.error_dict (PyStr.u "invalid characters"), 400%Z)).
Proof.
  split; [|split].
  - vm_compute. reflexivity.
  - vm_compute. reflexivity.
  - intros expression normalized Hbad.
    unfold Calculator.calc. fold normalized.
    destruct Hbad as [Hnil | [c [Hin Hc]]].
    + rewrite Hnil. reflexivity.
    + rewrite (CalculatorFacts.allowed_false normalized c Hin Hc).
      rewrite orb_true_r. reflexivity.
Qed.

Lemma calc_rejects_after_normalizing_witness :
  Calculator.calc PyStr.ascii_only (Graph.eval_rest Graph.plain_host)
    (Some (PyStr.u "2 & 3"))
  = (Calculator.error_dict (PyStr.u "invalid characters"), 400%Z).
Proof.
  refine (proj2 (proj2 (calc_rejects_after_normalizing PyStr.ascii_only
                          (Graph.eval_rest Graph.plain_host)))
                (Some (PyStr.u "2 & 3")) _).
  right. exists 38%N. split; vm_compute; [auto | reflexivity].
Defined.

(** C6, as stated, fails: the result of [calc("rm -rf /")] is not the
    "invalid characters" rejection. *)
Lemma rm_rf_passes_the_character_check :
  Calculator.calc PyStr.ascii_only (Graph.eval_rest Graph.plain_host)
    (Some (PyStr.u "rm -rf /"))
  <> (Calculator.error_dict (PyStr.u "invalid characters"), 400%Z).
Proof.
  vm_compute. discriminate.
Qed.

(* ====================================================================== *)
(** * Searching for phrases *)
(* ====================================================================== *)

Module ReFacts.
Import PyStr Re Spec Notions.

Lemma last_default (A : Type) (l : list A) (d d' : A) :
  l <> [] -> last l d = last l d'.
Proof.
  induction l as [|x l IH]; [congruence|]. intros _.
  destruct l as [|y l]; [reflexivity|].
  change (last (y :: l) d = last (y :: l) d'). apply IH. discriminate.
Qed.

Lemma last_cons (A : Type) (x : A) (l : list A) (d : A) :
  last (x :: l) d = last l x.
Proof.
  destruct l as [|y l]; [reflexivity|].
  change (last (y :: l) d = last (y :: l) x). apply last_default. discriminate.
Qed.

Lemma last_app (A : Type) (a b : list A) (d : A) :
  last (a ++ b) d = last b (last a d).
Proof.
  revert d. induction a as [|x a IH]; intros d; [reflexivity|].
  rewrite <- app_comm_cons, !last_cons. apply IH.
Qed.

Section Matching.
Variable U : Unicode.

Section Engine.
Variable A : Type.

Lemma rmatch_lit (p : pystr) :
  forall (prev : option char) (s : pystr) (k : cont A) (x : A),
    rmatch U (lit p) prev s k = Some x
    <-> exists rest, s = p ++ rest /\ k (before_end prev p) rest = Some x.
Proof.
  induction p as [|c p IH]; intros prev s k x.
  - simpl. split.
    + intros Hk. exists s. split; [reflexivity | exact Hk].
    + intros [rest [-> Hk]]. exact Hk.
  - change (rmatch U (lit (c :: p)) prev s k)
      with (match s with
            | y :: s' =>
              if (y =? c)%N then rmatch U (lit p) (Some y) s' k else None
            | [] => None
            end).
    unfold before_end. rewrite map_cons, last_cons.
    destruct s as [|y s']; [split; [discriminate|]|].
    + intros [rest [Heq _]]. discriminate.
    + destruct (N.eqb_spec y c) as [-> | Hne].
      * rewrite IH. split.
        -- intros [rest [-> Hk]]. exists rest. split; [reflexivity | exact Hk].
        -- intros [rest [Heq Hk]]. injection Heq as ->.
           exists rest. split; [reflexivity | exact Hk].
      * split; [discriminate|]. intros [rest [Heq _]]. simpl in Heq.
        injection Heq as Hy _. congruence.
Qed.

Lemma rmatch_any_of (ps : list pystr) :
  forall (prev : option char) (s : pystr) (k : cont A),
    (exists x, rmatch U (any_of ps) prev s k = Some x)
    <-> exists p rest,
          In p ps /\ s = p ++ rest
          /\ exists x, k (before_end prev p) rest = Some x.
Proof.
  induction ps as [|p ps IH]; intros prev s k.
  - simpl. split.
    + intros [x Hx]. destruct s; discriminate.
    + intros [p [rest [[] _]]].
  - assert (Hlit : (exists x, rmatch U (lit p) prev s k = Some x)
                   <-> exists rest, s = p ++ rest
                         /\ exists x, k (before_end prev p) rest = Some x).
    { split.
      - intros [x Hx]. apply rmatch_lit in Hx. destruct Hx as [rest [Hs Hk]].
        exists rest. split; [exact Hs | exists x; exact Hk].
      - intros [rest [Hs [x Hk]]]. exists x. apply rmatch_lit.
        exists rest. split; assumption. }
    destruct ps as [|q ps].
    + change (any_of [p]) with (lit p). rewrite Hlit. split.
      * intros [rest [Hs Hk]]. exists p, rest.
        split; [left; reflexivity | split; assumption].
      * intros [p' [rest [[<- | []] [Hs Hk]]]]. exists rest.
        split; assumption.
    + change (any_of (p :: q :: ps)) with (Alt (lit p) (any_of (q :: ps))).
      change (rmatch U (Alt (lit p) (any_of (q :: ps))) prev s k)
        with (match rmatch U (lit p) prev s k with
              | Some x => Some x
              | None => rmatch U (any_of (q :: ps)) prev s k
              end).
      split.
      * intros [x Hx].
        destruct (rmatch U (lit p) prev s k) as [y|] eqn:Hp.
        -- destruct (proj1 Hlit (ex_intro _ y eq_refl)) as [rest [Hs Hk]].
           exists p, rest. split; [left; reflexivity | split; assumption].
        -- destruct (proj1 (IH prev s k) (ex_intro _ x Hx))
             as [p' [rest [Hin Hrest]]].
           exists p', rest. split; [right; exact Hin | exact Hrest].
      * intros [p' [rest [[<- | Hin] [Hs Hk]]]].
        -- destruct (proj2 Hlit (ex_intro _ rest (conj Hs Hk))) as [y Hy].
           rewrite Hy. exists y. reflexivity.
        -- destruct (rmatch U (lit p) prev s k) as [y|];
             [exists y; reflexivity|].
           apply IH. exists p', rest. split; [exact Hin | split; assumption].
Qed.

End Engine.

(** A match of [\b(p1|p2|...)\b] at a position. *)
Lemma match_at_phrases (ps : list pystr) (prev : option char) (s : pystr) :
  (exists x, match_at U (phrases ps) prev s = Some x)
  <-> at_boundary U prev s = true
      /\ exists p rest,
           In p ps /\ s = p ++ rest
           /\ at_boundary U (before_end prev p) rest = true.
Proof.
  unfold match_at, phrases.
  change (rmatch U (Cat Wb (Cat (any_of ps) Wb)) prev s
            (fun prev' s' => Some (prev', s')))
    with (if at_boundary U prev s
          then rmatch U (any_of ps) prev s
                 (fun prev' s' =>
                    if at_boundary U prev' s' then Some (prev', s') else None)
          else None).
  destruct (at_boundary U prev s).
  - rewrite rmatch_any_of. split.
    + intros [p [rest [Hin [Hs [x Hk]]]]]. split; [reflexivity|].
      exists p, rest. split; [exact Hin | split; [exact Hs|]].
      destruct (at_boundary U (before_end prev p) rest);
        [reflexivity | discriminate].
    + intros [_ [p [rest [Hin [Hs Hb]]]]]. exists p, rest.
      split; [exact Hin | split; [exact Hs|]]. rewrite Hb.
      eexists. reflexivity.
  - split; [intros [x Hx]; discriminate | intros [Hf _]; discriminate].
Qed.

Lemma search_from_step (r : regex) (prev : option char) (s : pystr) :
  search_from U r prev s
  = match match_at U r prev s with
    | Some _ => true
    | None =>
      match s with
      | [] => false
      | c :: s' => search_from U r (Some c) s'
      end
    end.
Proof.
  destruct s; reflexivity.
Qed.

Lemma search_from_spec (r : regex) (s : pystr) :
  forall prev,
    search_from U r prev s = true
    <-> exists pre post,
          s = pre ++ post
          /\ exists x, match_at U r (before_end prev pre) post = Some x.
Proof.
  induction s as [|c s IH]; intros prev; rewrite search_from_step.
  - destruct (match_at U r prev []) as [x|] eqn:Hm.
    + split; [|reflexivity]. intros _. exists [], []. split; [reflexivity|].
      exists x. exact Hm.
    + split; [discriminate|]. intros [pre [post [Heq [x Hx]]]].
      symmetry in Heq. apply app_eq_nil in Heq. destruct Heq as [-> ->].
      change (match_at U r prev [] = Some x) in Hx. congruence.
  - destruct (match_at U r prev (c :: s)) as [x|] eqn:Hm.
    + split; [|reflexivity]. intros _. exists [], (c :: s).
      split; [reflexivity|]. exists x. exact Hm.
    + rewrite IH. split.
      * intros [pre [post [-> Hx]]]. exists (c :: pre), post.
        split; [reflexivity|]. unfold before_end in *.
        rewrite map_cons, last_cons. exact Hx.
      * intros [pre [post [Heq [x Hx]]]].
        destruct pre as [|c' pre].
        -- simpl in Heq. subst post.
           change (match_at U r prev (c :: s) = Some x) in Hx. congruence.
        -- injection Heq as <- ->. exists pre, post.
           split; [reflexivity|]. exists x. unfold before_end in *.
           rewrite map_cons, last_cons in Hx. exact Hx.
Qed.

(** [re.search(r"\b(p1|p2|...)\b", t)] finds a match exactly when one of
    the phrases occurs in [t] between two word boundaries. *)
Lemma search_phrases (ps : list pystr) (t : pystr) :
  search U (phrases ps) t = true
  <-> exists p, In p ps /\ occurs_as_words U p t.
Proof.
  unfold search, occurs_as_words. rewrite search_from_spec. split.
  - intros [pre [post [-> Hm]]]. apply match_at_phrases in Hm.
    destruct Hm as [Hb [p [rest [Hin [-> Hb']]]]].
    exists p. split; [exact Hin|]. exists pre, rest.
    split; [reflexivity|]. split; [exact Hb|].
    unfold before_end in Hb'. rewrite map_app, last_app. exact Hb'.
  - intros [p [Hin [pre [rest [-> [Hb Hb']]]]]]. exists pre, (p ++ rest).
    split; [reflexivity|]. apply match_at_phrases. split; [exact Hb|].
    exists p, rest. split; [exact Hin | split; [reflexivity|]].
    unfold before_end. rewrite map_app, last_app in Hb'. exact Hb'.
Qed.

Lemma search_phrases_none (ps : list pystr) (t : pystr) :
  search U (phrases ps) t = false
  <-> forall p, In p ps -> ~ occurs_as_words U p t.
Proof.
  split.
  - intros Hs p Hin Hocc.
    assert (Ht : search U (phrases ps) t = true).
    { apply search_phrases. exists p. split; assumption. }
    congruence.
  - intros Hnone. destruct (search U (phrases ps) t) eqn:Hs; [|reflexivity].
    apply search_phrases in Hs. destruct Hs as [p [Hin Hocc]].
    exfalso. exact (Hnone p Hin Hocc).
Qed.

End Matching.

End ReFacts.

(* ====================================================================== *)
(** * The router *)
(* ====================================================================== *)

(** C4, as the program has it.  For every non-empty normalized transcript:
    if one of the note-add trigger phrases occurs in it between two word
    boundaries and none of the negation markers "don't", "do not",
    "do n't", "never", "no" does, [route] yields NOTES; and if one of these
    negation markers occurs in it between two word boundaries, [route]
    yields ANSWER. *)
Theorem route_notes_and_negation (H : Graph.Host) (t : PyStr.pystr) :
  t <> [] ->
  ((exists p, In p Graph.notes_phrases
              /\ Spec.occurs_as_words (Graph.unicode H) p t) ->
   (forall m, In m Graph.negation_phrases ->
              ~ Spec.occurs_as_words (Graph.unicode H) m t) ->
   Graph.route H t = Graph.NOTES)
  /\ ((exists m, In m Graph.negation_phrases
                 /\ Spec.occurs_as_words (Graph.unicode H) m t) ->
      Graph.route H t = Graph.ANSWER).
Proof.
  intros Ht. apply PyStrFacts.nonempty_true in Ht.
  unfold Graph.route. rewrite Ht. simpl negb. cbv iota zeta.
  unfold Graph.notes_re, Graph.negation_re. split.
  - intros Htrigger Hnone.
    apply ReFacts.search_phrases in Htrigger.
    apply ReFacts.search_phrases_none in Hnone.
    rewrite Htrigger, Hnone. reflexivity.
  - intros Hneg. apply ReFacts.search_phrases in Hneg. rewrite Hneg.
    rewrite !andb_false_r. reflexivity.
Qed.

Lemma route_notes_and_negation_witness :
  Graph.route Graph.plain_host (PyStr.u "add a note call mom") = Graph.NOTES
  /\ Graph.route Graph.plain_host (PyStr.u "never add a note") = Graph.ANSWER.
Proof.
  split.
  - refine (proj1 (@route_notes_and_negation Graph.plain_host
                     (PyStr.u "add a note call mom") _) _ _).
    + vm_compute. discriminate.
    + apply ReFacts.search_phrases. vm_compute. reflexivity.
    + apply ReFacts.search_phrases_none. vm_compute. reflexivity.
  - refine (proj2 (@route_notes_and_negation Graph.plain_host
                     (PyStr.u "never add a note") _) _).
    + vm_compute. discriminate.
    + apply ReFacts.search_phrases. vm_compute. reflexivity.
Defined.

(** C4, as stated, fails in two ways.  "remember tomorrow" contains the
    trigger phrase "remember to" and no negation marker, and
    "do n't add a note" holds the trigger phrase "add a note" as whole
    words and none of the markers "don't", "do not", "never", "no"; for
    both [route] yields ANSWER, not NOTES. *)
Lemma note_trigger_without_notes :
  (PyStr.u "remember tomorrow" <> []
   /\ In (PyStr.u "remember to") Spec.note_add_triggers
   /\ Spec.contains (PyStr.u "remember to") (PyStr.u "remember tomorrow")
   /\ (forall m, In m Spec.negation_markers ->
         ~ Spec.occurs_as_words PyStr.ascii_only m
             (PyStr.u "remember tomorrow"))
   /\ Graph.route Graph.plain_host (PyStr.u "remember tomorrow")
      = Graph.ANSWER)
  /\ (PyStr.u "do n't add a note" <> []
      /\ In (PyStr.u "add a note") Spec.note_add_triggers
      /\ Spec.occurs_as_words PyStr.ascii_only (PyStr.u "add a note")
           (PyStr.u "do n't add a note")
      /\ (forall m, In m Spec.negation_markers ->
            ~ Spec.occurs_as_words PyStr.ascii_only m
                (PyStr.u "do n't add a note"))
      /\ Graph.route Graph.plain_host (PyStr.u "do n't add a note")
         = Graph.ANSWER).
Proof.
  split.
  - split; [vm_compute; discriminate|].
    split; [vm_compute; auto 10|].
    split; [exists [], (PyStr.u "morrow"); vm_compute; reflexivity|].
    split; [|vm_compute; reflexivity].
    apply ReFacts.search_phrases_none. vm_compute. reflexivity.
  - split; [vm_compute; discriminate|].
    split; [vm_compute; auto 10|].
    split; [exists (PyStr.u "do n't "), [];
            repeat split; vm_compute; reflexivity|].
    split; [|vm_compute; reflexivity].
    apply ReFacts.search_phrases_none. vm_compute. reflexivity.
Qed.

(* ====================================================================== *)
(** * The compiled graph *)
(* ====================================================================== *)

Module GraphFacts.
Import PyStr PyData Notes Graph Spec Notions PyStrFacts.

Lemma same_key_no_updates (updates : State) :
  same_key no_updates updates = false.
Proof.
  reflexivity.
Qed.

Lemma over_none (A : Type) (x : option A) : over x None = x.
Proof.
  destruct x; reflexivity.
Qed.

Lemma update_no_updates (updates : State) :
  update no_updates updates = updates.
Proof.
  destruct updates. unfold update, no_updates. simpl.
  rewrite !over_none. reflexivity.
Qed.

Lemma invoke_wire (r d c v : Node) (store0 : Store) (input : State)
  (store1 store2 store3 store4 store5 store6 : Store)
  (u1 u2 u3 u4 u5 u6 : State) :
  r store0 input = Some (store1, u1) ->
  let s1 := update input u1 in
  d store1 s1 = Some (store2, u2) ->
  c store2 s1 = Some (store3, u3) ->
  same_key u2 u3 = false ->
  let s2 := update s1 (update u2 u3) in
  c store3 s2 = Some (store4, u4) ->
  v store4 s2 = Some (store5, u5) ->
  same_key u4 u5 = false ->
  let s3 := update s2 (update u4 u5) in
  v store5 s3 = Some (store6, u6) ->
  invoke (wire r d c v) store0 input = Some (store6, update s3 u6, schedule).
Proof.
  intros Hr s1 Hd Hc1 Hk1 s2 Hc2 Hv1 Hk2 s3 Hv2.
  unfold invoke, wire. cbn -[update same_key no_updates].
  rewrite Hr, same_key_no_updates, update_no_updates. fold s1.
  rewrite Hd, same_key_no_updates, update_no_updates.
  rewrite Hc1, Hk1. fold s2.
  rewrite Hc2, same_key_no_updates, update_no_updates, Hv1, Hk2. fold s3.
  rewrite Hv2, same_key_no_updates, update_no_updates. reflexivity.
Qed.

Lemma tool_node_writes (H : Host) (store : Store) (state : State) :
  exists r status,
    snd (tool_node H store state) = set_tool_result r status
    /\ fits (intent state) r.
Proof.
  unfold tool_node.
  destruct (intent state) as [[| | | |]|]; cbv zeta.
  - destruct (nonempty (note_payload H (_normalize H (transcript state)))).
    + eexists _, _. split; [reflexivity|]. eexists. reflexivity.
    + eexists _, _. split; [reflexivity|]. eexists. reflexivity.
  - eexists _, _. split; [reflexivity|]. eexists. reflexivity.
  - destruct (Calculator.calc _ _ _) as [res code].
    eexists _, _. split; [reflexivity|]. eexists. reflexivity.
  - eexists _, _. split; [reflexivity|]. eexists. reflexivity.
  - eexists _, _. split; [reflexivity | exact I].
  - eexists _, _. split; [reflexivity | exact I].
Qed.

Lemma answerer_reads (t : option pystr) (i : option Intent)
  (r : option ToolResult) (status : option Z) (state : State) :
  reads t i r status state ->
  answerer state
  = answerer (mkState t i r None None status None None None).
Proof.
  intros [Ht [Hi [Hr Hs]]]. unfold answerer. simpl.
  rewrite Ht, Hi, Hr, Hs. reflexivity.
Qed.

(** On a state without a tool result, or with one of the shape its intent
    asks for, the composer raises nothing and writes a draft that is not
    empty. *)
Lemma answerer_draft (t : option pystr) (i : option Intent)
  (r : option ToolResult) (status : option Z) :
  (r = None \/ exists r', r = Some r' /\ fits i r') ->
  exists draft,
    nonempty draft = true
    /\ answerer (mkState t i r None None status None None None)
       = Some (set_draft_answer draft).
Proof.
  intros Hr. unfold answerer.
  cbn [intent tool_result calc_status transcript].
  destruct i as [[| | | |]|].
  - (* NOTES *)
    assert (Hd : exists d, as_dict r = Some d).
    { destruct Hr as [-> | [r' [-> [d ->]]]]; eexists; reflexivity. }
    destruct Hd as [d ->].
    destruct (ok d) as [[|]|]; draft_found.
  - (* NOTES_LIST *)
    assert (Hd : exists d, as_dict r = Some d).
    { destruct Hr as [-> | [r' [-> [d ->]]]]; eexists; reflexivity. }
    destruct Hd as [d ->]. cbv zeta.
    destruct (notes d) as [[|note rest]|]; draft_found.
  - (* CALC *)
    assert (Hd : exists d, as_dict r = Some d).
    { destruct Hr as [-> | [r' [-> [d ->]]]]; eexists; reflexivity. }
    destruct Hd as [d ->]. cbv zeta.
    destruct (result d) as [res|]; [destruct (is_200 status)|]; draft_found.
  - (* SEARCH *)
    assert (Hl : exists l, as_list r = Some l).
    { destruct Hr as [-> | [r' [-> [l ->]]]]; eexists; reflexivity. }
    destruct Hl as [l ->].
    destruct l as [|s l]; draft_found.
  - (* ANSWER *)
    cbv zeta. destruct (nonempty (strip (or_empty t))); draft_found.
  - cbv zeta. destruct (nonempty (strip (or_empty t))); draft_found.
Qed.

(** The verifier reads the draft (or the answer), and writes the four keys
    of the envelope. *)
Lemma verifier_reads (state state' : State) :
  verifier_input state = verifier_input state' ->
  verifier state = verifier state'.
Proof.
  intros Heq. unfold verifier. rewrite Heq. reflexivity.
Qed.

Lemma verifier_writes (state : State) :
  exists spoken trunc cont full,
    verifier state = envelope spoken trunc cont full.
Proof.
  destruct (VerifierFacts.verifier_cases state)
    as [[_ ->] | [_ [k [spoken [_ [_ ->]]]]]]; eexists _, _, _, _; reflexivity.
Qed.

Lemma verifier_input_draft (draft : pystr) (state : State) :
  nonempty draft = true -> draft_answer state = Some draft ->
  verifier_input state = draft.
Proof.
  intros Hne Hd. unfold verifier_input, or_else. rewrite Hd. simpl.
  rewrite Hne. reflexivity.
Qed.

End GraphFacts.

Import PyStr PyData Notes Graph Notions GraphFacts.



(** C2.  For the transcript "what is 9 times 8" the pipeline assigns the
    intent CALC, the dispatcher hands "9 times 8" to the evaluator, which
    returns 72 with status 200, and the composed answer is exactly
    "The answer is 72.", which the verifier returns unchanged. *)
Theorem nine_times_eight (H : Graph.Host) (store : Notes.Store) :
  Re.search (Graph.unicode H) Graph.calc_re (PyStr.u "what is 9 times 8")
  = true
  /\ Graph.route H (Graph._normalize H (Some (PyStr.u "what is 9 times 8")))
     = Graph.CALC
  /\ Graph.calc_expression H (PyStr.u "what is 9 times 8")
     = PyStr.u "9 times 8"
  /\ exists state trace,
       Graph.invoke (Graph.build_graph H) store
         (Graph.input_state (PyStr.u "what is 9 times 8"))
       = Some (store, state, trace)
       /\ Graph.intent state = Some Graph.CALC
       /\ Graph.tool_result state
          = Some (PyData.TDict (Calculator.result_dict (PyData.VInt 72)))
       /\ Graph.calc_status state = Some 200%Z
       /\ Graph.draft_answer state = Some (PyStr.u "The answer is 72.")
       /\ Graph.answer state = Some (PyStr.u "The answer is 72.").
Proof.
  split; [vm_compute; reflexivity|].
  split; [vm_compute; reflexivity|].
  split; [vm_compute; reflexivity|].
  eexists _, _. split; [vm_compute; reflexivity|].
  repeat split; vm_compute; reflexivity.
Qed.

(** C9, as the program has it.  For the transcript "list notes" on an empty
    note store the composed answer is "You don’t have any notes yet. Just
    ask me to remember something.", in which the apostrophe is the
    typographic one, U+2019. *)
Theorem list_notes_on_empty_store (H : Graph.Host) :
  exists state trace,
    Graph.invoke (Graph.build_graph H) Notes._NOTES
      (Graph.input_state (PyStr.u "list notes"))
    = Some (Notes._NOTES, state, trace)
    /\ Graph.intent state = Some Graph.NOTES_LIST
    /\ Graph.draft_answer state
       = Some (PyStr.u "You don’t have any notes yet. Just ask me to remember something.")
    /\ Graph.answer state
       = Some (PyStr.u "You don’t have any notes yet. Just ask me to remember something.")
    /\ nth 7 (PyStr.or_empty (Graph.answer state)) 0%N = 8217%N.
Proof.
  eexists _, _. split; [vm_compute; reflexivity|].
  repeat split; vm_compute; reflexivity.
Qed.

(** C9, as stated, fails: the answer is not the text with the ASCII
    apostrophe, U+0027. *)
Lemma no_notes_text_has_typographic_apostrophe :
  exists state trace,
    Graph.invoke (Graph.build_graph Graph.plain_host) []
      (Graph.input_state (PyStr.u "list notes"))
    = Some ([], state, trace)
    /\ Graph.answer state
       <> Some (PyStr.u "You don't have any notes yet. Just ask me to remember something.")
    /\ nth 7 (PyStr.or_empty (Graph.answer state)) 0%N = 8217%N
    /\ nth 7 (PyStr.u "You don't have any notes yet. Just ask me to remember something.") 0%N
       = 39%N.
Proof.
  eexists _, _. split; [vm_compute; reflexivity|].
  split; [vm_compute; discriminate|].
  split; vm_compute; reflexivity.
Qed.

(* ====================================================================== *)
(** * More about strings *)
(* ====================================================================== *)

Module MoreStrFacts.
Import PyStr Spec Notions MoreNotions PyStrFacts.

Lemma rstrip_id (s : pystr) : clean_head (rev s) -> rstrip s = s.
Proof.
  intros Hs. unfold rstrip. rewrite lstrip_id by exact Hs.
  apply rev_involutive.
Qed.

Lemma strip_id (s : pystr) :
  clean_head s -> clean_head (rev s) -> strip s = s.
Proof.
  intros Hh Hl. unfold strip. rewrite lstrip_id by exact Hh.
  apply rstrip_id. exact Hl.
Qed.

Lemma strip_strip (s : pystr) : strip (strip s) = strip s.
Proof.
  apply strip_id; [apply strip_clean_head | apply strip_clean_last].
Qed.

Lemma strip_rstrip (s : pystr) : clean_head s -> strip (rstrip s) = rstrip s.
Proof.
  intros Hs. apply strip_id.
  - apply rstrip_clean_head. exact Hs.
  - apply rstrip_clean_last.
Qed.

Lemma in_lstrip (c : char) (s : pystr) : In c (lstrip s) -> In c s.
Proof.
  destruct (lstrip_split s) as [ws [_ Heq]]. intros Hin.
  rewrite Heq. apply in_or_app. right. exact Hin.
Qed.

Lemma in_rstrip (c : char) (s : pystr) : In c (rstrip s) -> In c s.
Proof.
  destruct (rstrip_split s) as [ws [_ Heq]]. intros Hin.
  rewrite Heq. apply in_or_app. left. exact Hin.
Qed.

Lemma in_strip (c : char) (s : pystr) : In c (strip s) -> In c s.
Proof.
  unfold strip. intros Hin. apply in_lstrip, in_rstrip. exact Hin.
Qed.


(** Trimming on the right keeps a text that starts with a character that is
    not whitespace from becoming empty. *)
Lemma rstrip_nonempty (s : pystr) :
  clean_head s -> s <> [] -> rstrip s <> [].
Proof.
  intros Hh Hne Hnil. destruct (rstrip_split s) as [ws [Hws Heq]].
  rewrite Hnil in Heq. simpl in Heq. subst ws.
  destruct s as [|c s]; [congruence|].
  simpl in Hh. unfold blank in Hws. simpl in Hws. rewrite Hh in Hws.
  discriminate.
Qed.

Lemma strip_nonempty (s : pystr) : clean_head s -> s <> [] -> strip s <> [].
Proof.
  intros Hh Hne. unfold strip. rewrite lstrip_id by exact Hh.
  apply rstrip_nonempty; assumption.
Qed.

Lemma firstn_nonempty (k : nat) (s : pystr) :
  (0 < k)%nat -> s <> [] -> firstn k s <> [].
Proof.
  destruct k, s; simpl; try lia; congruence.
Qed.

Lemma rstrip_prefix (s : pystr) : prefix_of (rstrip s) s.
Proof.
  destruct (rstrip_split s) as [ws [_ Heq]]. exists ws. exact Heq.
Qed.

Lemma prefix_of_trans (a b c : pystr) :
  prefix_of a b -> prefix_of b c -> prefix_of a c.
Proof.
  intros [r1 ->] [r2 ->]. exists (r1 ++ r2). rewrite <- app_assoc.
  reflexivity.
Qed.

Lemma firstn_prefix (k : nat) (s : pystr) : prefix_of (firstn k s) s.
Proof.
  exists (skipn k s). symmetry. apply firstn_skipn.
Qed.

Lemma prefix_of_length (a s : pystr) :
  prefix_of a s -> (List.length a <= List.length s)%nat.
Proof.
  intros [rest ->]. rewrite length_app. lia.
Qed.

(** ** [rfind] *)

Lemma rfind_aux_none (c : char) (s : pystr) (stop : nat) (i last : Z) :
  (forall j, (j < stop)%nat -> nth_error s j <> Some c) ->
  rfind_aux c s stop i last = last.
Proof.
  revert s i last. induction stop as [|stop IH]; intros s i last Hnone.
  - destruct s; reflexivity.
  - destruct s as [|x s]; [reflexivity|]. simpl.
    destruct (N.eqb_spec x c) as [-> | Hne].
    + exfalso. apply (Hnone 0%nat); [lia | reflexivity].
    + apply IH. intros j Hj. apply (Hnone (S j)). lia.
Qed.

Lemma rfind_aux_last (c : char) (s : pystr) (stop k : nat) (i last : Z) :
  (k < stop)%nat -> nth_error s k = Some c ->
  (forall j, (k < j < stop)%nat -> nth_error s j <> Some c) ->
  rfind_aux c s stop i last = (i + Z.of_nat k)%Z.
Proof.
  revert s k i last. induction stop as [|stop IH];
    intros s k i last Hk Hc Hlater; [lia|].
  destruct s as [|x s]; [destruct k; discriminate|]. simpl.
  destruct k as [|k].
  - simpl in Hc. injection Hc as ->. rewrite N.eqb_refl.
    rewrite rfind_aux_none.
    + lia.
    + intros j Hj. apply (Hlater (S j)). lia.
  - simpl in Hc. rewrite (IH s k (i + 1)%Z).
    + lia.
    + lia.
    + exact Hc.
    + intros j Hj. apply (Hlater (S j)). lia.
Qed.

(** [rfind] finds the last place below [stop] that holds [c]. *)
Lemma rfind_last (c : char) (s : pystr) (stop k : nat) :
  (k < stop)%nat -> nth_error s k = Some c ->
  (forall j, (k < j < stop)%nat -> nth_error s j <> Some c) ->
  rfind c s stop = Z.of_nat k.
Proof.
  intros Hk Hc Hlater. unfold rfind.
  rewrite (@rfind_aux_last c s stop k 0%Z (-1)%Z Hk Hc Hlater). lia.
Qed.

End MoreStrFacts.

(* ====================================================================== *)
(** * More about the verifier *)
(* ====================================================================== *)

Module MoreVerifierFacts.
Import PyStr PyData Graph Spec Notions MoreNotions PyStrFacts MoreStrFacts.

(** The chunk [verifier] speaks of a trimmed text beyond the budget, by the
    place of the cut. *)
Lemma verifier_long (state : State) :
  let ans := strip (verifier_input state) in
  (SPOKEN_MAX_LEN < List.length ans)%nat ->
  exists k,
    (1 <= k <= SPOKEN_MAX_LEN)%nat
    /\ verifier state
       = envelope (rstrip (firstn k ans)) true
           (lstrip (skipn (List.length (rstrip (firstn k ans))) ans))
           (Some ans)
    /\ ((0 < sentence_cut ans)%Z -> k = Z.to_nat (sentence_cut ans + 1)).
Proof.
  intros ans Hlong.
  assert (Hhead : clean_head ans) by apply strip_clean_head.
  assert (Hstrip : forall k, strip (slice_to k ans) = rstrip (firstn k ans)).
  { intros k. unfold strip, slice_to. rewrite lstrip_id; [reflexivity|].
    apply firstn_clean_head. exact Hhead. }
  unfold verifier. fold ans.
  assert (Hne : nonempty ans = true).
  { destruct ans; [simpl in Hlong; lia | reflexivity]. }
  rewrite Hne. simpl negb. cbv iota.
  apply Nat.leb_gt in Hlong. rewrite Hlong.
  change (if (if (rfind 46%N ans SPOKEN_MAX_LEN =? -1)%Z
              then rfind 33%N ans SPOKEN_MAX_LEN
              else rfind 46%N ans SPOKEN_MAX_LEN) =? -1
          then rfind 63%N ans SPOKEN_MAX_LEN
          else if (rfind 46%N ans SPOKEN_MAX_LEN =? -1)%Z
               then rfind 33%N ans SPOKEN_MAX_LEN
               else rfind 46%N ans SPOKEN_MAX_LEN)%Z
    with (sentence_cut ans).
  assert (Hcut : (-1 <= sentence_cut ans < Z.of_nat SPOKEN_MAX_LEN)%Z).
  { pose proof (rfind_bounds 46%N ans SPOKEN_MAX_LEN).
    pose proof (rfind_bounds 33%N ans SPOKEN_MAX_LEN).
    pose proof (rfind_bounds 63%N ans SPOKEN_MAX_LEN).
    unfold sentence_cut.
    repeat match goal with
           | |- context [if ?b then _ else _] => destruct b
           end; lia. }
  pose proof (rfind_bounds 32%N ans SPOKEN_MAX_LEN) as Hspace.
  assert (Hbudget : (1 <= SPOKEN_MAX_LEN)%nat) by (unfold SPOKEN_MAX_LEN; lia).
  destruct (negb (sentence_cut ans =? -1)%Z && (0 <? sentence_cut ans)%Z)
    eqn:Hsentence.
  - apply andb_prop in Hsentence. destruct Hsentence as [_ Hpos].
    apply Z.ltb_lt in Hpos.
    exists (Z.to_nat (sentence_cut ans + 1)). rewrite Hstrip.
    split; [lia|]. split; [reflexivity | reflexivity].
  - assert (Hnot : ~ (0 < sentence_cut ans)%Z).
    { intros Hpos. apply Z.ltb_lt in Hpos. rewrite Hpos, andb_true_r in Hsentence.
      apply negb_false_iff, Z.eqb_eq in Hsentence. apply Z.ltb_lt in Hpos. lia. }
    destruct (negb (rfind 32%N ans SPOKEN_MAX_LEN =? -1)%Z
              && (0 <? rfind 32%N ans SPOKEN_MAX_LEN)%Z) eqn:Hsp.
    + apply andb_prop in Hsp. destruct Hsp as [_ Hpos].
      apply Z.ltb_lt in Hpos.
      exists (Z.to_nat (rfind 32%N ans SPOKEN_MAX_LEN)). rewrite Hstrip.
      split; [lia|]. split; [reflexivity | intros Hc; contradiction].
    + exists SPOKEN_MAX_LEN. unfold slice_to.
      split; [lia|]. split; [reflexivity | intros Hc; contradiction].
Qed.

(** The answer stays within the budget. *)
Lemma answer_length (state : State) (spoken : pystr) :
  answer (verifier state) = Some spoken ->
  (List.length spoken <= SPOKEN_MAX_LEN)%nat.
Proof.
  destruct (VerifierFacts.verifier_cases state)
    as [[Hshort ->] | [_ [k [chunk [Hk [Hchunk ->]]]]]];
    intros Heq; injection Heq as <-.
  - exact Hshort.
  - assert (Hlen : (List.length chunk
                    <= List.length
                         (firstn k (strip (verifier_input state))))%nat).
    { destruct Hchunk as [-> | ->];
        [apply strip_length | apply rstrip_length]. }
    rewrite length_firstn in Hlen. lia.
Qed.

End MoreVerifierFacts.

(** X1.  Whatever the state, the answer the verifier returns has at most
    300 characters. *)
Theorem verifier_answer_within_budget (state : Graph.State) :
  exists spoken,
    Graph.answer (Graph.verifier state) = Some spoken
    /\ (List.length spoken <= Graph.SPOKEN_MAX_LEN)%nat.
Proof.
  destruct (VerifierFacts.verifier_cases state)
    as [[Hshort ->] | [_ [k [spoken [Hk [Hspoken ->]]]]]].
  - eexists. split; [reflexivity | exact Hshort].
  - exists spoken. split; [reflexivity|].
    assert (Hlen : (List.length spoken
                    <= List.length
                         (firstn k (PyStr.strip (Graph.verifier_input state))))%nat).
    { destruct Hspoken as [-> | ->];
        [apply PyStrFacts.strip_length | apply PyStrFacts.rstrip_length]. }
    rewrite length_firstn in Hlen. lia.
Qed.

(** X2.  The answer of the verifier is a prefix of the trimmed draft, and
    it is empty only when the trimmed draft is. *)
Theorem verifier_answer_is_prefix (state : Graph.State) :
  let ans := PyStr.strip (Graph.verifier_input state) in
  exists spoken,
    Graph.answer (Graph.verifier state) = Some spoken
    /\ MoreNotions.prefix_of spoken ans
    /\ (spoken = [] <-> ans = []).
Proof.
  intros ans.
  destruct (VerifierFacts.verifier_cases state) as [[_ Heq] | [Hlong _]];
    fold ans in Heq || fold ans in Hlong.
  - exists ans. rewrite Heq. split; [reflexivity|]. split.
    + exists []. symmetry. apply app_nil_r.
    + tauto.
  - destruct (MoreVerifierFacts.verifier_long state Hlong)
      as [k [Hk [Heq _]]]; fold ans in Heq.
    eexists. rewrite Heq. split; [reflexivity|].
    assert (Hne : ans <> []).
    { intros Hnil. rewrite Hnil in Hlong. simpl in Hlong. lia. }
    split.
    + eapply MoreStrFacts.prefix_of_trans;
        [apply MoreStrFacts.rstrip_prefix | apply MoreStrFacts.firstn_prefix].
    + split; [|intros Hnil; contradiction].
      intros Hnil. exfalso. revert Hnil.
      apply MoreStrFacts.rstrip_nonempty.
      * apply PyStrFacts.firstn_clean_head, PyStrFacts.strip_clean_head.
      * apply MoreStrFacts.firstn_nonempty; [lia | exact Hne].
Qed.

(** X3.  When the verifier truncates, the answer is not empty, the
    continuation is trimmed and strictly shorter than the full answer, so
    that giving the continuation back to the verifier as the next draft
    goes on with the rest of the text and reaches its end. *)
Theorem verifier_truncation_makes_progress (state : Graph.State) :
  Graph.truncated (Graph.verifier state) = Some true ->
  exists spoken cont full,
    Graph.answer (Graph.verifier state) = Some spoken
    /\ Graph.continuation (Graph.verifier state) = Some cont
    /\ Graph.full_answer (Graph.verifier state) = Some (Some full)
    /\ spoken <> []
    /\ (List.length spoken + List.length cont <= List.length full)%nat
    /\ PyStr.strip cont = cont
    /\ Graph.verifier_input (Graph.set_draft_answer cont) = cont.
Proof.
  intros Htrunc.
  set (ans := PyStr.strip (Graph.verifier_input state)).
  destruct (VerifierFacts.verifier_cases state) as [[_ Heq] | [Hlong _]].
  { rewrite Heq in Htrunc. discriminate. }
  fold ans in Hlong.
  destruct (MoreVerifierFacts.verifier_long state Hlong)
    as [k [Hk [Heq _]]]; fold ans in Heq.
  set (spoken := PyStr.rstrip (firstn k ans)) in *.
  assert (Hhead : Notions.clean_head ans) by apply PyStrFacts.strip_clean_head.
  assert (Hlast : Notions.clean_head (rev ans))
    by apply PyStrFacts.strip_clean_last.
  destruct (@VerifierFacts.cut_rebuilds k ans spoken Hhead Hlast
              ltac:(lia) ltac:(right; reflexivity)) as [Hne [ws [Hws Hans]]].
  set (cont := PyStr.lstrip (skipn (List.length spoken) ans)) in *.
  exists spoken, cont, ans. rewrite Heq.
  do 3 (split; [reflexivity|]).
  assert (Hcont : PyStr.strip cont = cont).
  { apply MoreStrFacts.strip_id; [apply PyStrFacts.lstrip_clean_head|].
    rewrite Hans, !rev_app_distr in Hlast.
    destruct (rev cont) as [|c r] eqn:Hr; [exact I|].
    simpl in Hlast. simpl. exact Hlast. }
  split.
  - apply MoreStrFacts.rstrip_nonempty.
    + apply PyStrFacts.firstn_clean_head. exact Hhead.
    + apply MoreStrFacts.firstn_nonempty; [lia|].
      intros Hnil. rewrite Hnil in Hlong. simpl in Hlong. lia.
  - split.
    + pose proof (f_equal (@List.length _) Hans) as Hl.
      rewrite !length_app in Hl. lia.
    + split; [exact Hcont|].
      unfold Graph.verifier_input, PyStr.or_else. simpl.
      destruct cont; [contradiction | reflexivity].
Qed.

Module CutFacts.
Import PyStr PyData Graph Spec Notions MoreNotions PyStrFacts MoreStrFacts.

Lemma firstn_succ (c : char) (s : pystr) (i : nat) :
  nth_error s i = Some c -> firstn (S i) s = firstn i s ++ [c].
Proof.
  revert s. induction i as [|i IH]; intros s Hc.
  - destruct s as [|x s]; [discriminate|]. simpl in Hc. injection Hc as ->.
    reflexivity.
  - destruct s as [|x s]; [discriminate|]. simpl in Hc.
    change (x :: firstn (S i) s = x :: (firstn i s ++ [c])).
    f_equal. apply IH. exact Hc.
Qed.

Lemma rfind_none (c : char) (s : pystr) (stop : nat) :
  none_below c s stop -> rfind c s stop = (-1)%Z.
Proof.
  intros Hnone. unfold rfind. apply rfind_aux_none. exact Hnone.
Qed.

Lemma rfind_last_below (c : char) (s : pystr) (stop i : nat) :
  last_below c s stop i -> rfind c s stop = Z.of_nat i.
Proof.
  intros [Hi [Hc Hlater]]. apply rfind_last; assumption.
Qed.

(** The cut falls on the first kind of sentence end, in the order ".",
    "!", "?", that the text holds below the budget. *)
Lemma sentence_cut_priority (before : list char) (c : char)
  (after : list char) (ans : pystr) (i : nat) :
  sentence_ends = before ++ c :: after ->
  (forall c', In c' before -> none_below c' ans SPOKEN_MAX_LEN) ->
  last_below c ans SPOKEN_MAX_LEN i ->
  sentence_cut ans = Z.of_nat i.
Proof.
  intros Hends Hnone Hlast. unfold sentence_cut.
  pose proof (@rfind_last_below c ans SPOKEN_MAX_LEN i Hlast) as Hc.
  unfold sentence_ends in Hends.
  destruct before as [|b1 before].
  - injection Hends as <- _. rewrite Hc.
    destruct (Z.eqb_spec (Z.of_nat i) (-1)); [lia|].
    destruct (Z.eqb_spec (Z.of_nat i) (-1)); [lia | reflexivity].
  - injection Hends as <- Hends.
    rewrite (@rfind_none _ ans SPOKEN_MAX_LEN (Hnone _ (or_introl eq_refl))).
    simpl Z.eqb. cbv iota.
    destruct before as [|b2 before].
    + injection Hends as <- _. rewrite Hc.
      destruct (Z.eqb_spec (Z.of_nat i) (-1)); [lia | reflexivity].
    + injection Hends as <- Hends.
      rewrite (@rfind_none _ ans SPOKEN_MAX_LEN
                 (Hnone _ (or_intror (or_introl eq_refl)))).
      simpl Z.eqb. cbv iota.
      destruct before as [|b3 before].
      * injection Hends as <- _. exact Hc.
      * injection Hends as _ Hends. destruct before; discriminate.
Qed.

End CutFacts.

(** X4.  A trimmed draft beyond the budget is cut right after the last
    sentence end below position 300, if that is beyond position 0: after
    the last ".", or, when there is no "." below 300, after the last "!",
    or, when there is neither, after the last "?".  The answer is the text
    up to and including that character. *)
Theorem verifier_cuts_after_sentence_end
  (state : Graph.State) (before : list PyStr.char) (c : PyStr.char)
  (after : list PyStr.char) (i : nat) :
  let ans := PyStr.strip (Graph.verifier_input state) in
  (Graph.SPOKEN_MAX_LEN < List.length ans)%nat ->
  MoreNotions.sentence_ends = before ++ c :: after ->
  (forall c', In c' before ->
     MoreNotions.none_below c' ans Graph.SPOKEN_MAX_LEN) ->
  MoreNotions.last_below c ans Graph.SPOKEN_MAX_LEN i ->
  (0 < i)%nat ->
  Graph.answer (Graph.verifier state) = Some (firstn (S i) ans)
  /\ Graph.truncated (Graph.verifier state) = Some true
  /\ last (firstn (S i) ans) 0%N = c.
Proof.
  intros ans Hlong Hends Hnone Hlast Hi.
  pose proof (@CutFacts.sentence_cut_priority before c after ans i
                Hends Hnone Hlast) as Hcut.
  destruct (MoreVerifierFacts.verifier_long state Hlong)
    as [k [_ [Heq Hk]]]; fold ans in Heq, Hk.
  rewrite Hcut in Hk. specialize (Hk ltac:(lia)).
  replace (Z.to_nat (Z.of_nat i + 1)) with (S i) in Hk by lia. subst k.
  destruct Hlast as [_ [Hc _]].
  assert (Hspace : PyStr.is_space c = false).
  { assert (Hin : In c MoreNotions.sentence_ends).
    { rewrite Hends. apply in_or_app. right. left. reflexivity. }
    unfold MoreNotions.sentence_ends in Hin. simpl in Hin.
    destruct Hin as [<- | [<- | [<- | []]]]; reflexivity. }
  assert (Hid : PyStr.rstrip (firstn (S i) ans) = firstn (S i) ans).
  { apply MoreStrFacts.rstrip_id.
    rewrite (@CutFacts.firstn_succ c ans i Hc), rev_app_distr. simpl.
    exact Hspace. }
  rewrite Heq, Hid. split; [reflexivity|]. split; [reflexivity|].
  rewrite (@CutFacts.firstn_succ c ans i Hc). apply last_last.
Qed.

(** X5.  The verifier leaves its own answer alone: given the answer it
    returned as the next draft, it returns the same answer, not truncated
    and without continuation. *)
Theorem verifier_idempotent (state : Graph.State) (spoken : PyStr.pystr) :
  Graph.answer (Graph.verifier state) = Some spoken ->
  Graph.verifier (Graph.set_draft_answer spoken)
  = Graph.envelope spoken false [] None.
Proof.
  intros Hanswer.
  assert (Htrim : PyStr.strip spoken = spoken).
  { destruct (VerifierFacts.verifier_cases state) as [[_ Heq] | [Hlong _]].
    - rewrite Heq in Hanswer. injection Hanswer as <-.
      apply MoreStrFacts.strip_strip.
    - destruct (MoreVerifierFacts.verifier_long state Hlong)
        as [k [_ [Heq _]]].
      rewrite Heq in Hanswer. injection Hanswer as <-.
      apply MoreStrFacts.strip_rstrip.
      apply PyStrFacts.firstn_clean_head, PyStrFacts.strip_clean_head. }
  pose proof (@MoreVerifierFacts.answer_length state spoken Hanswer) as Hlen.
  assert (Hin : Graph.verifier_input (Graph.set_draft_answer spoken) = spoken).
  { unfold Graph.verifier_input, PyStr.or_else. simpl.
    destruct spoken; reflexivity. }
  destruct (VerifierFacts.verifier_cases (Graph.set_draft_answer spoken))
    as [[_ Heq] | [Hlong _]]; rewrite Hin, Htrim in *.
  - exact Heq.
  - lia.
Qed.

Module CutChecks.
Import PyStr MoreNotions.

Lemma is_last_below_sound (c : char) (s : pystr) (stop i : nat) :
  is_last_below c s stop i = true -> last_below c s stop i.
Proof.
  unfold is_last_below, last_below. intros Hb.
  apply andb_prop in Hb. destruct Hb as [Hb Hlater].
  apply andb_prop in Hb. destruct Hb as [Hi Hc].
  apply Nat.ltb_lt in Hi. split; [exact Hi|]. split.
  - destruct (nth_error s i) as [x|]; [|discriminate].
    apply N.eqb_eq in Hc. congruence.
  - intros j Hj Hx. rewrite forallb_forall in Hlater.
    specialize (Hlater j). rewrite Hx, N.eqb_refl in Hlater.
    assert (Hin : In j (seq (S i) (stop - S i))) by (apply in_seq; lia).
    specialize (Hlater Hin). discriminate.
Qed.

End CutChecks.

Lemma verifier_truncation_makes_progress_witness :
  exists spoken cont full,
    Graph.answer
      (Graph.verifier
         (Graph.set_draft_answer
            (List.concat (repeat (PyStr.u "One more sentence. ") 20))))
    = Some spoken
    /\ Graph.continuation
         (Graph.verifier
            (Graph.set_draft_answer
               (List.concat (repeat (PyStr.u "One more sentence. ") 20))))
       = Some cont
    /\ Graph.full_answer
         (Graph.verifier
            (Graph.set_draft_answer
               (List.concat (repeat (PyStr.u "One more sentence. ") 20))))
       = Some (Some full)
    /\ spoken <> []
    /\ (List.length spoken + List.length cont <= List.length full)%nat
    /\ PyStr.strip cont = cont
    /\ Graph.verifier_input (Graph.set_draft_answer cont) = cont.
Proof.
  apply verifier_truncation_makes_progress. vm_compute. reflexivity.
Defined.

Lemma verifier_cuts_after_sentence_end_witness :
  Graph.answer
    (Graph.verifier
       (Graph.set_draft_answer
          (List.concat (repeat (PyStr.u "One more sentence! ") 20))))
  = Some (List.concat (repeat (PyStr.u "One more sentence! ") 14)
          ++ PyStr.u "One more sentence!").
Proof.
  refine (eq_trans
            (proj1 (@verifier_cuts_after_sentence_end
                      (Graph.set_draft_answer
                         (List.concat
                            (repeat (PyStr.u "One more sentence! ") 20)))
                      [46%N] 33%N [63%N] 283 _ _ _ _ _)) _).
  - vm_compute. lia.
  - reflexivity.
  - intros c' [<- | []]. intros j Hj.
    assert (Hlast : MoreNotions.is_last_below 46%N
              (PyStr.strip
                 (Graph.verifier_input
                    (Graph.set_draft_answer
                       (List.concat
                          (repeat (PyStr.u "One more sentence! ") 20)))))
              Graph.SPOKEN_MAX_LEN 0 = false) by (vm_compute; reflexivity).
    intros Hx.
    assert (Hall : forallb
               (fun j' =>
                  match nth_error
                          (PyStr.strip
                             (Graph.verifier_input
                                (Graph.set_draft_answer
                                   (List.concat
                                      (repeat (PyStr.u "One more sentence! ")
                                              20))))) j' with
                  | Some x => negb (x =? 46)%N
                  | None => true
                  end) (seq 0 Graph.SPOKEN_MAX_LEN) = true)
      by (vm_compute; reflexivity).
    rewrite forallb_forall in Hall. specialize (Hall j).
    rewrite Hx in Hall. simpl in Hall.
    assert (Hin : In j (seq 0 Graph.SPOKEN_MAX_LEN)) by (apply in_seq; lia).
    specialize (Hall Hin). discriminate.
  - apply CutChecks.is_last_below_sound. vm_compute. reflexivity.
  - lia.
  - vm_compute. reflexivity.
Defined.

Lemma verifier_idempotent_witness :
  Graph.verifier
    (Graph.set_draft_answer
       (List.concat (repeat (PyStr.u "One more sentence. ") 14)
        ++ PyStr.u "One more sentence."))
  = Graph.envelope
      (List.concat (repeat (PyStr.u "One more sentence. ") 14)
       ++ PyStr.u "One more sentence.")
      false [] None.
Proof.
  apply (@verifier_idempotent
           (Graph.set_draft_answer
              (List.concat (repeat (PyStr.u "One more sentence. ") 20)))).
  vm_compute. reflexivity.
Defined.

(* ====================================================================== *)
(** * More about the note store and the dispatcher *)
(* ====================================================================== *)

Module MoreNotesFacts.
Import PyStr PyData Notes Graph Spec Notions MoreNotions PyStrFacts
       MoreStrFacts NotesFacts.

Lemma kept_trimmed (texts : list (option pystr)) :
  Forall trimmed_note (kept texts).
Proof.
  unfold kept. apply Forall_forall. intros note Hin.
  apply filter_In in Hin. destruct Hin as [Hin Hne].
  apply in_map_iff in Hin. destruct Hin as [text [<- _]].
  split.
  - apply nonempty_true. exact Hne.
  - apply strip_strip.
Qed.

End MoreNotesFacts.

(** X6.  The note store only grows at its end: after any sequence of [add]
    calls on any store, the notes that were there are still there, in
    place, followed by the new ones, and the count [list_notes] reports is
    the old count plus the number of notes added. *)
Theorem note_store_is_append_only
  (texts : list (option PyStr.pystr)) (store : Notes.Store) :
  exists added,
    Notes.add_all texts store = store ++ added
    /\ (List.length added <= List.length texts)%nat
    /\ PyData.count (Notes.list_notes (Notes.add_all texts store))
       = Some (Z.of_nat (List.length store) + Z.of_nat (List.length added))%Z
    /\ PyData.notes (Notes.list_notes (Notes.add_all texts store))
       = Some (store ++ added).
Proof.
  exists (Spec.kept texts). rewrite NotesFacts.add_all_store.
  split; [reflexivity|]. split.
  - unfold Spec.kept.
    etransitivity; [apply filter_length_le|]. rewrite length_map. lia.
  - split; [|reflexivity]. simpl. rewrite length_app. f_equal. lia.
Qed.

(** X7.  Every note the store holds is a trimmed text that is not empty:
    [add_note] keeps this true of any store of which it is true, so it is
    true of every store that started empty. *)
Theorem stored_notes_are_trimmed
  (texts : list (option PyStr.pystr)) (store : Notes.Store) :
  Forall MoreNotions.trimmed_note store ->
  Forall MoreNotions.trimmed_note (Notes.add_all texts store)
  /\ Forall MoreNotions.trimmed_note (Notes.add_all texts Notes._NOTES).
Proof.
  intros Hstore. rewrite !NotesFacts.add_all_store. split.
  - apply Forall_app. split; [exact Hstore|].
    apply MoreNotesFacts.kept_trimmed.
  - apply MoreNotesFacts.kept_trimmed.
Qed.

Lemma stored_notes_are_trimmed_witness :
  Forall MoreNotions.trimmed_note
    (Notes.add_all [Some (PyStr.u "  call mom "); None; Some (PyStr.u " ")]
       [PyStr.u "buy milk"]).
Proof.
  apply (proj1 (@stored_notes_are_trimmed
                  [Some (PyStr.u "  call mom "); None; Some (PyStr.u " ")]
                  [PyStr.u "buy milk"]
                  ltac:(repeat constructor; vm_compute;
                        try discriminate; reflexivity))).
Defined.

(* ====================================================================== *)
(** * The run of the graph, stage by stage *)
(* ====================================================================== *)

Module PipelineFacts.
Import PyStr PyData Notes Graph Spec Notions MoreNotions PyStrFacts
       MoreStrFacts GraphFacts.

(** The run of the compiled graph on a transcript, in terms of one run of
    the dispatcher, the composer's run on its result, and the verifier's
    run on that draft. *)
Lemma invoke_result (H : Host) (store : Store) (text : pystr) :
  exists r status draft,
    snd (tool_node H store (routed H text)) = set_tool_result r status
    /\ answerer
         (mkState (Some text) (Some (route H (_normalize H (Some text))))
                  (Some r) None None status None None None)
       = Some (set_draft_answer draft)
    /\ nonempty draft = true
    /\ invoke (build_graph H) store (input_state text)
       = Some (fst (tool_node H store (routed H text)),
               final_state H text r status draft, schedule).
Proof.
  set (i := route H (_normalize H (Some text))).
  set (input := input_state text).
  set (u1 := router H input).
  set (s1 := update input u1).
  assert (Hs1 : s1 = routed H text) by reflexivity.
  destruct (tool_node H store s1) as [store2 u2] eqn:Htool.
  destruct (tool_node_writes H store s1) as [r [status [Hu2 Hfits]]].
  rewrite Htool in Hu2. simpl in Hu2. subst u2.
  rewrite Hs1 in Hfits. unfold routed in Hfits. cbn [intent] in Hfits.
  fold i in Hfits.
  destruct (@answerer_draft (Some text) (Some i) None None
              ltac:(left; reflexivity)) as [d1 [Hd1 Ha1]].
  destruct (@answerer_draft (Some text) (Some i) (Some r) status
              ltac:(right; eexists; split; [reflexivity | exact Hfits]))
    as [d2 [Hd2 Ha2]].
  set (s2 := update s1 (update (set_tool_result r status)
                               (set_draft_answer d1))).
  destruct (verifier_writes s2) as [a1 [t1 [c1 [f1 Hv1]]]].
  set (s3 := update s2 (update (set_draft_answer d2) (verifier s2))).
  exists r, status, d2.
  rewrite <- Hs1, Htool. split; [reflexivity|]. split; [exact Ha2|].
  split; [exact Hd2|].
  assert (Hfinal : update s3 (verifier s3) = final_state H text r status d2).
  { assert (Hin : verifier_input s3 = d2).
    { apply verifier_input_draft; [exact Hd2|].
      unfold s3. rewrite Hv1. reflexivity. }
    assert (Hin' : verifier_input (set_draft_answer d2) = d2).
    { apply verifier_input_draft; [exact Hd2 | reflexivity]. }
    rewrite (@verifier_reads s3 (set_draft_answer d2)) by congruence.
    unfold final_state. fold i.
    destruct (verifier_writes (set_draft_answer d2))
      as [a2 [t2 [c2 [f2 Hv2]]]].
    rewrite Hv2. unfold s3. rewrite Hv1. unfold s2. rewrite Hs1.
    unfold routed. fold i. destruct status; reflexivity. }
  rewrite <- Hfinal. simpl fst.
  unfold build_graph.
  apply (@invoke_wire (router_node H) (tool_node_node H) answerer_node
           verifier_node store input store store2 store2 store2 store2
           store2 u1 (set_tool_result r status) (set_draft_answer d1)
           (set_draft_answer d2) (verifier s2) (verifier s3)).
  - reflexivity.
  - unfold tool_node_node. fold u1 s1. rewrite Htool. reflexivity.
  - unfold answerer_node. fold u1 s1. rewrite Hs1. unfold routed. fold i.
    rewrite Ha1. reflexivity.
  - destruct status; reflexivity.
  - unfold answerer_node. fold u1 s1 s2.
    rewrite (@answerer_reads (Some text) (Some i) (Some r) status s2).
    + rewrite Ha2. reflexivity.
    + unfold s2. rewrite Hs1. unfold routed. fold i. repeat split.
      destruct status; reflexivity.
  - reflexivity.
  - rewrite Hv1. reflexivity.
  - reflexivity.
Qed.

End PipelineFacts.

Module StageFacts.
Import PyStr PyData Calculator Notes Graph Spec Notions MoreNotions PyStrFacts
       MoreStrFacts GraphFacts.

Lemma starts_clean_strip (s : pystr) :
  starts_clean s = true -> strip s <> [].
Proof.
  intros Hs. destruct s as [|c s]; [discriminate|].
  apply strip_nonempty; [|discriminate].
  simpl in *. apply negb_true_iff. exact Hs.
Qed.

Lemma starts_clean_nonempty (s : pystr) :
  starts_clean s = true -> nonempty s = true.
Proof.
  destruct s; [discriminate | reflexivity].
Qed.

(** Whenever the composer returns, it has written [draft_answer] and no
    other key, and the draft starts with a character that is not
    whitespace. *)
Lemma answerer_writes_draft (state updates : State) :
  answerer state = Some updates ->
  exists draft,
    updates = set_draft_answer draft /\ starts_clean draft = true.
Proof.
  unfold answerer.
  destruct (intent state) as [[| | | |]|].
  - destruct (as_dict (tool_result state)) as [d|]; [|discriminate].
    destruct (ok d) as [[|]|]; draft_written.
  - destruct (as_dict (tool_result state)) as [d|]; [|discriminate].
    cbv zeta. destruct (notes d) as [[|note rest]|]; draft_written.
  - destruct (as_dict (tool_result state)) as [d|]; [|discriminate].
    cbv zeta.
    destruct (result d) as [res|];
      [destruct (is_200 (calc_status state))|]; draft_written.
  - destruct (as_list (tool_result state)) as [[|s l]|]; [| |discriminate];
      draft_written.
  - cbv zeta.
    destruct (nonempty (strip (or_empty (transcript state))));
      draft_written.
  - cbv zeta.
    destruct (nonempty (strip (or_empty (transcript state))));
      draft_written.
Qed.


(** What the verifier's run on a draft leaves in the final state. *)
Lemma final_state_fields (H : Host) (text : pystr) (r : ToolResult)
  (status : option Z) (draft : pystr) :
  let state := final_state H text r status draft in
  transcript state = Some text
  /\ intent state = Some (route H (_normalize H (Some text)))
  /\ tool_result state = Some r
  /\ draft_answer state = Some draft
  /\ calc_status state = status
  /\ answer state = answer (verifier (set_draft_answer draft))
  /\ truncated state = truncated (verifier (set_draft_answer draft))
  /\ continuation state = continuation (verifier (set_draft_answer draft))
  /\ full_answer state = full_answer (verifier (set_draft_answer draft)).
Proof.
  unfold final_state.
  destruct (verifier_writes (set_draft_answer draft))
    as [a [t [c [f ->]]]].
  repeat split.
Qed.


Lemma set_tool_result_inj (r r' : ToolResult) (status status' : option Z) :
  set_tool_result r status = set_tool_result r' status' ->
  r = r' /\ status = status'.
Proof.
  intros Heq. injection Heq as -> ->. split; reflexivity.
Qed.

(** The run of the graph, once the dispatcher's result and the composer's
    draft on it are known. *)
Lemma invoke_with (H : Host) (store : Store) (text : pystr)
  (r : ToolResult) (status : option Z) (draft : pystr) :
  snd (tool_node H store (routed H text)) = set_tool_result r status ->
  answerer
    (mkState (Some text) (Some (route H (_normalize H (Some text))))
             (Some r) None None status None None None)
  = Some (set_draft_answer draft) ->
  invoke (build_graph H) store (input_state text)
  = Some (fst (tool_node H store (routed H text)),
          final_state H text r status draft, schedule).
Proof.
  intros Htool Hdraft.
  destruct (PipelineFacts.invoke_result H store text)
    as [r' [status' [draft' [Htool' [Hdraft' [_ Hrun]]]]]].
  rewrite Htool in Htool'. apply set_tool_result_inj in Htool'.
  destruct Htool' as [<- <-].
  rewrite Hdraft in Hdraft'. injection Hdraft' as <-. exact Hrun.
Qed.


(** A draft within the budget that is trimmed is the answer. *)
Lemma answer_of_short_draft (draft : pystr) :
  starts_clean draft = true -> strip draft = draft ->
  (List.length draft <= SPOKEN_MAX_LEN)%nat ->
  verifier (set_draft_answer draft) = envelope draft false [] None.
Proof.
  intros Hclean Htrim Hlen.
  assert (Hin : verifier_input (set_draft_answer draft) = draft).
  { apply verifier_input_draft; [|reflexivity].
    apply starts_clean_nonempty. exact Hclean. }
  destruct (VerifierFacts.verifier_cases (set_draft_answer draft))
    as [[_ Heq] | [Hlong _]]; rewrite Hin, Htrim in *.
  - exact Heq.
  - lia.
Qed.

End StageFacts.

(** X8.  Whenever the composer returns, it has written [draft_answer] and
    nothing else, and the draft is not blank; so the verifier never falls
    back on an earlier [answer]. *)
Theorem composer_writes_a_draft (state updates : Graph.State) :
  Graph.answerer state = Some updates ->
  exists draft,
    updates = Graph.set_draft_answer draft
    /\ PyStr.strip draft <> []
    /\ Graph.verifier_input (Graph.update state updates) = draft.
Proof.
  intros Hrun.
  destruct (@StageFacts.answerer_writes_draft state updates Hrun)
    as [draft [-> Hclean]].
  exists draft. split; [reflexivity|]. split.
  - apply StageFacts.starts_clean_strip. exact Hclean.
  - apply GraphFacts.verifier_input_draft; [|reflexivity].
    apply StageFacts.starts_clean_nonempty. exact Hclean.
Qed.

Lemma composer_writes_a_draft_witness :
  exists draft,
    Graph.set_draft_answer (PyStr.u "I didn’t catch that.")
    = Graph.set_draft_answer draft
    /\ PyStr.strip draft <> []
    /\ Graph.verifier_input
         (Graph.update (Graph.input_state (PyStr.u "  "))
            (Graph.set_draft_answer (PyStr.u "I didn’t catch that.")))
       = draft.
Proof.
  apply (@composer_writes_a_draft (Graph.input_state (PyStr.u "  "))).
  vm_compute. reflexivity.
Defined.



Module IntentFacts.
Import PyStr PyData Calculator Notes Graph Spec Notions MoreNotions PyStrFacts
       MoreStrFacts GraphFacts StageFacts.

(** What the dispatcher writes, by the intent of the transcript. *)
Lemma tool_node_routed (H : Host) (store : Store) (text : pystr)
  (i : Intent) :
  route H (_normalize H (Some text)) = i ->
  tool_node H store (routed H text)
  = tool_node H store
      (mkState (Some text) (Some i) None None None None None None None).
Proof.
  intros <-. reflexivity.
Qed.

Lemma str_of_nat_Z (n : nat) : str_of_Z (Z.of_nat n) = str_of_nat n.
Proof.
  reflexivity.
Qed.

Lemma note_lines_length (idx : nat) (notes : list pystr) :
  List.length (note_lines idx notes) = List.length notes.
Proof.
  revert idx. induction notes as [|note notes IH]; intros idx;
    [reflexivity|].
  change (S (List.length (note_lines (S idx) notes))
          = S (List.length notes)).
  f_equal. apply IH.
Qed.

(** The run of the graph on a transcript of a given intent, from the
    dispatcher's result for that intent and the composer's draft on it. *)
Lemma run_of (H : Host) (store store' : Store) (text : pystr) (i : Intent)
  (r : ToolResult) (status : option Z) (draft : pystr) :
  route H (_normalize H (Some text)) = i ->
  tool_node H store
    (mkState (Some text) (Some i) None None None None None None None)
  = (store', set_tool_result r status) ->
  answerer (mkState (Some text) (Some i) (Some r) None None status
                    None None None)
  = Some (set_draft_answer draft) ->
  invoke (build_graph H) store (input_state text)
  = Some (store', final_state H text r status draft, schedule)
  /\ tool_result (final_state H text r status draft) = Some r
  /\ draft_answer (final_state H text r status draft) = Some draft
  /\ answer (final_state H text r status draft)
     = answer (verifier (set_draft_answer draft)).
Proof.
  intros Hroute Htool Hdraft.
  rewrite <- (tool_node_routed H store text Hroute) in Htool.
  assert (Hsnd : snd (tool_node H store (routed H text))
                 = set_tool_result r status) by (rewrite Htool; reflexivity).
  rewrite <- Hroute in Hdraft.
  pose proof (@invoke_with H store text r status draft Hsnd Hdraft) as Hrun.
  rewrite Htool in Hrun. split; [exact Hrun|].
  destruct (final_state_fields H text r status draft)
    as [_ [_ [Hr [Hd [_ [Ha _]]]]]].
  split; [exact Hr|]. split; [exact Hd | exact Ha].
Qed.

End IntentFacts.

(** X11.  A transcript routed to NOTES with a payload that is not empty
    stores exactly that payload, once, and is confirmed with the new number
    of notes, "note" in the singular for one note; with an empty payload
    nothing is stored and the answer is the fixed failure sentence. *)
Theorem notes_transcript_is_stored_and_confirmed
  (H : Graph.Host) (store : Notes.Store) (text : PyStr.pystr) :
  Graph.route H (Graph._normalize H (Some text)) = Graph.NOTES ->
  let payload := Graph.note_payload H (Graph._normalize H (Some text)) in
  let n := S (List.length store) in
  exists state,
    Graph.invoke (Graph.build_graph H) store (Graph.input_state text)
    = Some (if PyStr.nonempty payload then store ++ [payload] else store,
            state, Notions.schedule)
    /\ Graph.draft_answer state
       = Some (if PyStr.nonempty payload
               then PyStr.u "Got it. I’ll remember that. You now have "
                    ++ PyStr.str_of_nat n ++ PyStr.u " "
                    ++ (if (n =? 1)%nat then PyStr.u "note"
                        else PyStr.u "notes")
                    ++ PyStr.u "."
               else PyStr.u "I couldn’t save that note. Please try again.").
Proof.
  intros Hroute payload n.
  pose proof (IntentFacts.tool_node_routed H store text Hroute) as Htool.
  unfold Graph.tool_node in Htool at 2.
  cbn [Graph.intent Graph.transcript] in Htool. fold payload in Htool.
  assert (Htrim : PyStr.strip payload = payload)
    by apply MoreStrFacts.strip_strip.
  destruct (PyStr.nonempty payload) eqn:Hne.
  - unfold Notes.add_note in Htool. simpl PyStr.or_empty in Htool.
    rewrite Htrim, Hne in Htool.
    set (count := Z.of_nat (List.length (store ++ [payload]))) in *.
    set (r := PyData.TDict
                (PyData.mkDict (Some true) (Some count) None None None)) in *.
    set (draft := PyStr.u "Got it. I’ll remember that. You now have "
                  ++ PyStr.str_of_Z count ++ PyStr.u " "
                  ++ (if (count =? 1)%Z then PyStr.u "note"
                      else PyStr.u "notes")
                  ++ PyStr.u ".").
    assert (Hsnd : snd (Graph.tool_node H store (MoreNotions.routed H text))
                   = Graph.set_tool_result r None)
      by (rewrite Htool; reflexivity).
    assert (Hans : Graph.answerer
                     (Graph.mkState (Some text)
                        (Some (Graph.route H (Graph._normalize H (Some text))))
                        (Some r) None None None None None None)
                   = Some (Graph.set_draft_answer draft))
      by (rewrite Hroute; reflexivity).
    pose proof (@StageFacts.invoke_with H store text r None draft Hsnd Hans)
      as Hrun.
    rewrite Htool in Hrun.
    exists (MoreNotions.final_state H text r None draft).
    split; [exact Hrun|].
    destruct (StageFacts.final_state_fields H text r None draft)
      as [_ [_ [_ [Hd _]]]].
    rewrite Hd. f_equal. unfold draft, count.
    rewrite length_app, Nat.add_1_r. fold n.
    rewrite IntentFacts.str_of_nat_Z.
    replace (Z.of_nat n =? 1)%Z with (n =? 1)%nat; [reflexivity|].
    destruct (Nat.eqb_spec n 1); destruct (Z.eqb_spec (Z.of_nat n) 1);
      try reflexivity; lia.
  - set (r := PyData.TDict
                (PyData.mkDict (Some false) (Some 0%Z) None None None)) in *.
    set (draft := PyStr.u "I couldn’t save that note. Please try again.").
    assert (Hsnd : snd (Graph.tool_node H store (MoreNotions.routed H text))
                   = Graph.set_tool_result r None)
      by (rewrite Htool; reflexivity).
    assert (Hans : Graph.answerer
                     (Graph.mkState (Some text)
                        (Some (Graph.route H (Graph._normalize H (Some text))))
                        (Some r) None None None None None None)
                   = Some (Graph.set_draft_answer draft))
      by (rewrite Hroute; reflexivity).
    pose proof (@StageFacts.invoke_with H store text r None draft Hsnd Hans)
      as Hrun.
    rewrite Htool in Hrun.
    exists (MoreNotions.final_state H text r None draft).
    split; [exact Hrun|].
    apply (StageFacts.final_state_fields H text r None draft).
Qed.

(** X12.  A transcript routed to ANSWER (no rule matched, or a negation
    marker suppressed them) is echoed: nothing is stored, the tool result is
    the empty list, and the draft quotes the raw transcript, trimmed but
    neither lower-cased nor collapsed, as "You said “...”"; a blank
    transcript gets "I didn’t catch that." *)
Theorem answer_transcript_is_echoed
  (H : Graph.Host) (store : Notes.Store) (text : PyStr.pystr) :
  Graph.route H (Graph._normalize H (Some text)) = Graph.ANSWER ->
  exists state,
    Graph.invoke (Graph.build_graph H) store (Graph.input_state text)
    = Some (store, state, Notions.schedule)
    /\ Graph.tool_result state = Some (PyData.TList [])
    /\ Graph.draft_answer state
       = Some (if PyStr.nonempty (PyStr.strip text)
               then PyStr.u "You said “" ++ PyStr.strip text ++ PyStr.u ".”"
               else PyStr.u "I didn’t catch that.").
Proof.
  intros Hroute.
  destruct (@IntentFacts.run_of H store store text Graph.ANSWER
              (PyData.TList []) None
              (if PyStr.nonempty (PyStr.strip text)
               then PyStr.u "You said “" ++ PyStr.strip text ++ PyStr.u ".”"
               else PyStr.u "I didn’t catch that.")
              Hroute eq_refl)
    as [Hrun [Hr [Hd _]]].
  - unfold Graph.answerer. cbn [Graph.intent Graph.transcript]. cbv zeta.
    simpl PyStr.or_empty.
    destruct (PyStr.nonempty (PyStr.strip text)); reflexivity.
  - eexists. split; [exact Hrun|]. split; [exact Hr | exact Hd].
Qed.

(** X13.  A transcript that is empty or whitespace only is routed to
    ANSWER, stores nothing, and is answered "I didn’t catch that." *)
Theorem blank_transcript_is_not_caught
  (H : Graph.Host) (store : Notes.Store) (text : PyStr.pystr) :
  PyStr.strip text = [] ->
  exists state,
    Graph.invoke (Graph.build_graph H) store (Graph.input_state text)
    = Some (store, state, Notions.schedule)
    /\ Graph.intent state = Some Graph.ANSWER
    /\ Graph.answer state = Some (PyStr.u "I didn’t catch that.")
    /\ Graph.truncated state = Some false.
Proof.
  intros Hblank.
  assert (Hroute : Graph.route H (Graph._normalize H (Some text))
                   = Graph.ANSWER).
  { unfold Graph._normalize. simpl PyStr.or_empty. rewrite Hblank.
    reflexivity. }
  assert (Hdraft : Graph.answerer
                     (Graph.mkState (Some text) (Some Graph.ANSWER)
                        (Some (PyData.TList [])) None None None None None
                        None)
                   = Some (Graph.set_draft_answer
                             (PyStr.u "I didn’t catch that."))).
  { unfold Graph.answerer. cbn [Graph.intent Graph.transcript]. cbv zeta.
    simpl PyStr.or_empty. rewrite Hblank. reflexivity. }
  destruct (@IntentFacts.run_of H store store text Graph.ANSWER
              (PyData.TList []) None (PyStr.u "I didn’t catch that.")
              Hroute eq_refl Hdraft)
    as [Hrun _].
  eexists. split; [exact Hrun|].
  destruct (StageFacts.final_state_fields H text (PyData.TList []) None
              (PyStr.u "I didn’t catch that."))
    as [_ [Hi [_ [_ [_ [Ha [Ht _]]]]]]].
  rewrite Hi, Ha, Ht, Hroute.
  split; [reflexivity|]. split; vm_compute; reflexivity.
Qed.

(** X14.  A transcript routed to SEARCH leaves the store alone and looks up
    the topic the dispatcher extracted, unless that topic is empty; when
    the lookup gives nothing or is not made, the answer is the fixed
    sentence "I couldn’t find anything solid on that topic. Try rephrasing
    it for me."; otherwise the draft is the lead line followed by one line
    for each of the first two snippets. *)
Theorem search_transcript_is_looked_up
  (H : Graph.Host) (store : Notes.Store) (text : PyStr.pystr) :
  Graph.route H (Graph._normalize H (Some text)) = Graph.SEARCH ->
  let topic := Graph.search_topic H (Graph._normalize H (Some text)) in
  let found :=
    if PyStr.nonempty topic then Graph.wiki_summary H topic else [] in
  exists state,
    Graph.invoke (Graph.build_graph H) store (Graph.input_state text)
    = Some (store, state, Notions.schedule)
    /\ Graph.tool_result state = Some (PyData.TList found)
    /\ (found = [] ->
        Graph.answer state
        = Some (PyStr.u "I couldn’t find anything solid on that topic. Try rephrasing it for me."))
    /\ (found <> [] ->
        Graph.draft_answer state
        = Some (PyStr.u "Here’s what I found." ++ [10%N]
                ++ PyStr.join [10%N]
                     (map Graph.snippet_line (firstn 2 found)))).
Proof.
  intros Hroute topic found.
  set (draft :=
         match found with
         | [] => PyStr.u "I couldn’t find anything solid on that topic. Try rephrasing it for me."
         | _ => PyStr.u "Here’s what I found." ++ [10%N]
                ++ PyStr.join [10%N]
                     (map Graph.snippet_line (firstn 2 found))
         end).
  destruct (@IntentFacts.run_of H store store text Graph.SEARCH
              (PyData.TList found) None draft Hroute eq_refl)
    as [Hrun [Hr [Hd Ha]]].
  - unfold Graph.answerer, draft.
    cbn [Graph.intent Graph.tool_result Graph.as_list].
    destruct found; reflexivity.
  - eexists. split; [exact Hrun|]. split; [exact Hr|]. split.
    + intros Hnone. rewrite Ha. unfold draft. rewrite Hnone.
      vm_compute. reflexivity.
    + intros Hsome. rewrite Hd. unfold draft.
      destruct found; [contradiction | reflexivity].
Qed.

Module SnippetFacts.
Import PyStr PyData Graph MoreStrFacts PyStrFacts.


End SnippetFacts.

Lemma notes_transcript_is_stored_and_confirmed_witness :
  exists state,
    Graph.invoke (Graph.build_graph Graph.plain_host) [PyStr.u "buy milk"]
      (Graph.input_state (PyStr.u "Add a note  call mom"))
    = Some ([PyStr.u "buy milk"; PyStr.u "call mom"], state, Notions.schedule)
    /\ Graph.draft_answer state
       = Some (PyStr.u "Got it. I’ll remember that. You now have 2 notes.").
Proof.
  apply (@notes_transcript_is_stored_and_confirmed Graph.plain_host
           [PyStr.u "buy milk"] (PyStr.u "Add a note  call mom")).
  vm_compute. reflexivity.
Defined.

Lemma answer_transcript_is_echoed_witness :
  exists state,
    Graph.invoke (Graph.build_graph Graph.plain_host) []
      (Graph.input_state (PyStr.u " Never  add a Note "))
    = Some ([], state, Notions.schedule)
    /\ Graph.tool_result state = Some (PyData.TList [])
    /\ Graph.draft_answer state
       = Some (PyStr.u "You said “Never  add a Note.”").
Proof.
  apply (@answer_transcript_is_echoed Graph.plain_host []
           (PyStr.u " Never  add a Note ")).
  vm_compute. reflexivity.
Defined.

Lemma blank_transcript_is_not_caught_witness :
  exists state,
    Graph.invoke (Graph.build_graph Graph.plain_host) []
      (Graph.input_state (PyStr.u "   "))
    = Some ([], state, Notions.schedule)
    /\ Graph.intent state = Some Graph.ANSWER
    /\ Graph.answer state = Some (PyStr.u "I didn’t catch that.")
    /\ Graph.truncated state = Some false.
Proof.
  apply (@blank_transcript_is_not_caught Graph.plain_host []
           (PyStr.u "   ")).
  vm_compute. reflexivity.
Defined.

Lemma search_transcript_is_looked_up_witness :
  let found :=
    [PyData.mkSnippet (Some (PyStr.u "Cat"))
       (Some (PyStr.u "The cat is a small mammal."))] in
  exists state,
    Graph.invoke (Graph.build_graph MoreNotions.one_page_host) []
      (Graph.input_state (PyStr.u "Search for cats"))
    = Some ([], state, Notions.schedule)
    /\ Graph.tool_result state = Some (PyData.TList found)
    /\ (found = [] ->
        Graph.answer state
        = Some (PyStr.u "I couldn’t find anything solid on that topic. Try rephrasing it for me."))
    /\ (found <> [] ->
        Graph.draft_answer state
        = Some (PyStr.u "Here’s what I found." ++ [10%N]
                ++ PyStr.join [10%N]
                     (map Graph.snippet_line (firstn 2 found)))).
Proof.
  apply (@search_transcript_is_looked_up MoreNotions.one_page_host []
           (PyStr.u "Search for cats")).
  vm_compute. reflexivity.
Defined.
